(** * Message expiry on a swarm

    A shallow embedding of [ts/session/apis/snode_api/expire.ts]: the
    canonical strings that are signed and verified, the handling of one
    storage node's answer, and the coordinator [expireMessageOnSnode].

    JavaScript values are modelled as follows.
    - A [string] is a sequence of 8-bit characters; for ASCII text its order
      [String.le] is the code-unit order JavaScript uses to compare strings.
    - A [number] holding a timestamp is an integer [Z]; it is falsy exactly
      when it is [0], and a template literal renders it in decimal.
    - A function that can either return or throw yields an [Outcome].
    - Logging, the clock, signing and the network are effects: they are
      recorded, in order, in a trace of [Event]s threaded through the monad
      [M]. *)

From Stdlib Require Import ZArith Ascii List Decimal DecimalString DecimalPos DecimalZ.
From Stdlib Require String.
From stdpp Require Import gmap strings list sorting.

Local Open Scope Z_scope.
#[local] Set Warnings "-clear-no-such-hyp".

(** ** JavaScript data *)

Definition bytes := list Byte.byte.

(** A parsed JSON value, as far as [isEmpty] looks at it. *)
#[warnings="-register-all"]
Inductive JsValue :=
| JsUndefined
| JsNull
| JsBool (b : bool)
| JsNumber (n : Z)
| JsString (s : string)
| JsArray (items : list JsValue)
| JsObject (keys : list string).

(** lodash's [isEmpty]: collections and strings are empty when their length
    is zero, objects when they have no own enumerable key; every other value
    (undefined, null, booleans, numbers) counts as empty. *)
Definition isEmpty (v : JsValue) : bool :=
  match v with
  | JsString s => bool_decide (s = "")
  | JsArray items => bool_decide (items = [])
  | JsObject keys => bool_decide (keys = [])
  | JsUndefined | JsNull | JsBool _ | JsNumber _ => true
  end.

(** [Array.prototype.join]: the elements with [sep] between neighbours. *)
Fixpoint Array_join (sep : string) (items : list string) : string :=
  match items with
  | [] => ""
  | [x] => x
  | x :: rest => x +:+ sep +:+ Array_join sep rest
  end.

(** The string a template literal makes of an integral number: its decimal
    digits, with a minus sign when negative.  (JavaScript prints exactly
    this for integers below 10^21 in magnitude, which millisecond
    timestamps are.) *)
Definition Number_toString (n : Z) : string :=
  NilZero.string_of_int (Z.to_int n).

(** [Array.prototype.sort] without a comparator, on strings: ascending in
    code-unit order.  The order is total and antisymmetric, so every correct
    sorting procedure returns this list. *)
Definition Array_sort (items : list string) : list string :=
  merge_sort String.le items.

(** [String.prototype.toUpperCase] on ASCII letters. *)
Definition Ascii_toUpperCase (c : ascii) : ascii :=
  let n := N_of_ascii c in
  if ((97 <=? n) && (n <=? 122))%N then ascii_of_N (n - 32) else c.

Fixpoint toUpperCase (s : string) : string :=
  match s with
  | EmptyString => EmptyString
  | String c rest => String (Ascii_toUpperCase c) (toUpperCase rest)
  end.

(** [Boolean(x)] of an optional boolean property. *)
Definition truthy (b : option bool) : bool := default false b.

(** [x || undefined] on an optional boolean property. *)
Definition or_undefined (b : option bool) : option bool :=
  if truthy b then Some true else None.

(** ** Errors and outcomes *)

Inductive JsError :=
| TypeError (msg : string)
| Error (msg : string)
| EmptySwarmError (pubkey msg : string)
| ForeignError (msg : string).

Inductive Outcome (A : Type) :=
| Returned (a : A)
| Thrown (e : JsError).
Arguments Returned {A} a.
Arguments Thrown {A} e.

(** [o] is a normal return. *)
Definition is_Returned {A} (o : Outcome A) : Prop :=
  match o with Returned _ => True | Thrown _ => False end.

(** ** Records of the source *)

Record HexKeyPair := { pubKey : string; privKey : string }.

Record PubKey := { key : string }.

Record Snode := { ip : string; port : Z; snode_pubkey_ed25519 : string }.

Record SignResult := { sig_signature : string; sig_pubkey_ed25519 : string }.

(** [ExpireParams], with the fields [expireMessageOnSnode] puts in. *)
Record ExpireParams := {
  pubkey : PubKey;
  pubkey_ed25519 : string;
  messages : list string;
  expiry : Z;
  extend : option bool;
  shorten : option bool;
  signature : string
}.

(** What goes over the wire: [params] with the owner key as a string. *)
Record RpcParams := {
  rpc_pubkey : string;
  rpc_pubkey_ed25519 : string;
  rpc_messages : list string;
  rpc_expiry : Z;
  rpc_extend : option bool;
  rpc_shorten : option bool;
  rpc_signature : string
}.

Record RpcResult := { status : Z; body : string }.

(** One node's entry of the [swarm] object of an answer.  The answer is
    untyped JSON: [updated] is [None] when the entry has no such member, or
    one that cannot be spread into an array. *)
Record SwarmEntry := {
  failed : JsValue;
  updated : option (list string);
  unchanged : option (list (string * string));
  entry_expiry : Z;
  entry_signature : string
}.

(** The [swarm] object: its keys in [Object.keys] order with their entries,
    each entry being an object. *)
Definition Swarm := list (string * SwarmEntry).

(** What is stored for a node: [hashes] is the entry's [updated] member as
    it was read, [None] when it was [undefined]. *)
Record ExpirationResult := { hashes : option (list string); result_expiry : Z }.

Record ExpireMessageOnSnodeProps := {
  messageHash : string;
  expireTimer : Z;
  props_extend : option bool;
  props_shorten : option bool
}.

(** ** Effects *)

Inductive LogMethod := debug | warn | error | eror.

Inductive Event :=
| Log (method : LogMethod) (text : string)
| Clock (now : Z)
| SwarmLookup (owner : string)
| Sign (message secretKey : bytes)
| Verify (sig message publicKey : bytes)
| Rpc (targetNode : Snode) (params : RpcParams) (associatedWith : string).

Definition Trace := list Event.

(** A computation reads the trace so far and returns or throws, together
    with the extended trace. *)
Definition M (A : Type) : Type := Trace → Outcome A * Trace.

Definition ret {A} (a : A) : M A := λ tr, (Returned a, tr).

Definition throw {A} (e : JsError) : M A := λ tr, (Thrown e, tr).

Definition bind {A B} (m : M A) (k : A → M B) : M B :=
  λ tr, match m tr with
        | (Returned a, tr') => k a tr'
        | (Thrown e, tr') => (Thrown e, tr')
        end.

Notation "'let!' x := m 'in' k" := (bind m (λ x, k))
  (at level 10, x name, m at level 100, k at level 200).
Notation "m ;; k" := (bind m (λ _, k))
  (at level 100, k at level 200, right associativity).

(** [try { m } catch (e) { h e }] *)
Definition try_catch {A} (m : M A) (h : JsError → M A) : M A :=
  λ tr, match m tr with
        | (Returned a, tr') => (Returned a, tr')
        | (Thrown e, tr') => h e tr'
        end.

(** Running [m] as a promise of its own: a rejection stays in the promise. *)
Definition settle {A} (m : M A) : M (Outcome A) :=
  λ tr, let '(o, tr') := m tr in (Returned o, tr').

Definition emit (e : Event) : M unit := λ tr, (Returned tt, tr ++ [e]).

Definition lift {A} (o : Outcome A) : M A := λ tr, (o, tr).

Fixpoint mapM {A B} (f : A → M B) (l : list A) : M (list B) :=
  match l with
  | [] => ret []
  | x :: rest => let! y := f x in let! ys := mapM f rest in ret (y :: ys)
  end.

(** ** Collaborators

    Everything [expire.ts] imports and does not define: the decoders and
    encoders of [utils/String] (which may throw), libsodium, the identity
    cache, the swarm pool, the network clock, the RPC client, [JSON.parse]
    followed by reading [.swarm], [firstTrue], the fan-out constant, and
    whether the logger object has a member spelled [eror].  The clock is a
    function of the history so far, so two reads need not agree. *)
Class Collaborators := {
  fromHexToArray : string → Outcome bytes;
  fromBase64ToArray : string → Outcome bytes;
  fromUInt8ArrayToBase64 : bytes → string;
  StringUtils_encode : string → bytes;
  crypto_sign_detached : bytes → bytes → Outcome bytes;
  crypto_sign_verify_detached : bytes → bytes → bytes → Outcome bool;
  getOurPubKeyFromCache : option PubKey;
  getUserED25519KeyPair : option HexKeyPair;
  getSwarmFor : string → list Snode;
  getNowWithNetworkOffset : Trace → Z;
  DEFAULT_CONNECTIONS : nat;
  snodeRpc : Snode → RpcParams → string → Outcome (option RpcResult);
  JSON_parse_swarm : string → Outcome (option Swarm);
  firstTrue : list (Outcome (option Snode)) → Outcome (option Snode);
  window_log_has_eror : bool
}.

Section expire.
Context `{Collaborators}.

(** [window.log.<method>(text)]; calling a member the logger does not have
    is a [TypeError]. *)
Definition window_log (method : LogMethod) (text : string) : M unit :=
  match method with
  | eror =>
      if window_log_has_eror then emit (Log eror text)
      else throw (TypeError "window.log.eror is not a function")
  | _ => emit (Log method text)
  end.

(** The template literal of [generateSignature]:
    "expire" || ShortenOrExtend || expiry || messages[0] || ... || messages[N] *)
Definition generateSignature_verificationString
    (shortenOrExtend : string) (timestamp : Z) (messageHashes : list string) : string :=
  "expire" +:+ shortenOrExtend +:+ Number_toString timestamp
    +:+ Array_join "" messageHashes.

Definition generateSignature (pubkey_ed25519 : option HexKeyPair)
    (shortenOrExtend : string) (timestamp : Z) (messageHashes : list string)
    : M (option SignResult) :=
  match pubkey_ed25519 with
  | None => ret None
  | Some keypair =>
      let! edKeyPrivBytes := lift (fromHexToArray (privKey keypair)) in
      let verificationString :=
        generateSignature_verificationString shortenOrExtend timestamp messageHashes in
      let verificationData := StringUtils_encode verificationString in
      window_log debug ("generateSignature verificationString " +:+ verificationString);;
      let message := verificationData in
      try_catch
        (emit (Sign message edKeyPrivBytes);;
         let! signature := lift (crypto_sign_detached message edKeyPrivBytes) in
         let signatureBase64 := fromUInt8ArrayToBase64 signature in
         ret (Some {| sig_signature := signatureBase64;
                      sig_pubkey_ed25519 := pubKey keypair |}))
        (λ e, window_log warn "generateSignature failed with: ";; ret None)
  end.

(** The [hashes] array of [verifySignature]: requested hashes, updated
    hashes, then the sorted HASH || EXPIRY strings of a non-empty
    [unchanged] object. *)
Definition verifySignature_hashes (messageHashes updatedHashes : list string)
    (unchangedHashes : option (list (string * string))) : list string :=
  let hashes := messageHashes ++ updatedHashes in
  match unchangedHashes with
  | Some entries =>
      if bool_decide (0 < length entries)%nat
      then hashes ++ Array_sort ((λ kv, fst kv +:+ snd kv) <$> entries)
      else hashes
  | None => hashes
  end.

Definition verifySignature_verificationString (pubkey : PubKey) (expiryApplied : Z)
    (messageHashes updatedHashes : list string)
    (unchangedHashes : option (list (string * string))) : string :=
  key pubkey +:+ Number_toString expiryApplied
    +:+ Array_join "" (verifySignature_hashes messageHashes updatedHashes unchangedHashes).

(** [[...messageHashes, ...updatedHashes]]: spreading a value that is not
    iterable is a [TypeError]. *)
Definition spread_updatedHashes (updatedHashes : option (list string))
    : Outcome (list string) :=
  match updatedHashes with
  | Some updatedHashes => Returned updatedHashes
  | None => Thrown (TypeError "updatedHashes is not iterable")
  end.

(** The node key is decoded and the hashes are spread before the [try]
    block is entered. *)
Definition verifySignature (pubkey : PubKey) (snodePubkey : string)
    (expiryApplied : Z) (signature : string)
    (messageHashes : list string) (updatedHashes : option (list string))
    (unchangedHashes : option (list (string * string))) : M bool :=
  if bool_decide (expiryApplied = 0)
     || isEmpty (JsArray (JsString <$> messageHashes))
     || isEmpty (JsString signature)
  then window_log warn "verifySignature missing argument";; ret false
  else
    let! edKeyPrivBytes := lift (fromHexToArray snodePubkey) in
    let! updatedHashes := lift (spread_updatedHashes updatedHashes) in
    let verificationString :=
      verifySignature_verificationString pubkey expiryApplied
        messageHashes updatedHashes unchangedHashes in
    let verificationData := StringUtils_encode verificationString in
    window_log debug ("verifySignature verificationString " +:+ verificationString);;
    try_catch
      (let! sigBytes := lift (fromBase64ToArray signature) in
       emit (Verify sigBytes verificationData edKeyPrivBytes);;
       let! isValid := lift (crypto_sign_verify_detached sigBytes verificationData edKeyPrivBytes) in
       ret isValid)
      (λ e, window_log warn "verifySignature failed with: ";; ret false).

(** The body of the loop [for (const nodeKey of Object.keys(swarm))], run
    over the remaining entries with the [results] object so far. *)
Fixpoint processExpirationResults_loop (pubkey : PubKey) (targetNode : Snode)
    (entries : Swarm) (messageHashes : list string)
    (results : gmap string ExpirationResult) : M (gmap string ExpirationResult) :=
  match entries with
  | [] => ret results
  | (nodeKey, entry) :: rest =>
      let! results :=
        (if negb (isEmpty (failed entry))
         then
           window_log warn
             ("loki_message:::expireMessage - Couldn't delete data from: "
                +:+ snode_pubkey_ed25519 targetNode
                +:+ " due to an error Unknown (404)");;
           ret (<[nodeKey := {| hashes := Some []; result_expiry := 0 |}]> results)
         else ret results) in
      let updatedHashes := updated entry in
      let unchangedHashes := unchanged entry in
      let expiryApplied := entry_expiry entry in
      let signature := entry_signature entry in
      let! isValid :=
        verifySignature pubkey nodeKey expiryApplied signature
          messageHashes updatedHashes unchangedHashes in
      (if negb isValid
       then window_log warn "loki_message:::expireMessage - Signature verification failed!"
       else ret tt);;
      let results :=
        <[nodeKey := {| hashes := updatedHashes; result_expiry := expiryApplied |}]> results in
      processExpirationResults_loop pubkey targetNode rest messageHashes results
  end.

Definition processExpirationResults (pubkey : PubKey) (targetNode : Snode)
    (swarm : option Swarm) (messageHashes : list string)
    : M (gmap string ExpirationResult) :=
  match swarm with
  | None | Some [] =>
      throw (Error ("expireOnNodes failed! " +:+ Array_join "," messageHashes))
  | Some entries =>
      processExpirationResults_loop pubkey targetNode entries messageHashes ∅
  end.

(** The RPC requires the pubkey to be a string:
    [{ ...params, pubkey: params.pubkey.key }]. *)
Definition rpcParams (params : ExpireParams) : RpcParams :=
  {| rpc_pubkey := key (pubkey params);
     rpc_pubkey_ed25519 := pubkey_ed25519 params;
     rpc_messages := messages params;
     rpc_expiry := expiry params;
     rpc_extend := extend params;
     rpc_shorten := shorten params;
     rpc_signature := signature params |}.

Definition expireOnNodes (targetNode : Snode) (params : ExpireParams) : M bool :=
  let rpcParams := rpcParams params in
  try_catch
    (emit (Rpc targetNode rpcParams (key (pubkey params)));;
     let! result := lift (snodeRpc targetNode rpcParams (key (pubkey params))) in
     match result with
     | None => ret false
     | Some result =>
         if negb (status result =? 200) || bool_decide (body result = "")
         then ret false
         else
           try_catch
             (let! swarm := lift (JSON_parse_swarm (body result)) in
              let! expirationResults :=
                processExpirationResults (pubkey params) targetNode swarm (messages params) in
              window_log debug "expireOnNodes attempt complete. Here are the results";;
              ret true)
             (λ e,
                window_log warn "expireOnNodes Failed to parse 'swarm' result: ";;
                ret false)
     end)
    (λ e,
       window_log warn
         ("expire - send error: destination " +:+ ip targetNode +:+ ":"
            +:+ Number_toString (port targetNode));;
       throw e).

(** [shorten ? 'shorten' : extend ? 'extend' : ''] *)
Definition shortenOrExtend (extend shorten : option bool) : string :=
  if truthy shorten then "shorten" else if truthy extend then "extend" else "".

(** [getNowWithNetworkOffset()], with the read recorded. *)
Definition readNetworkTime : M Z :=
  λ tr, let now := getNowWithNetworkOffset tr in (Returned now, tr ++ [Clock now]).

(** The [params] object [expireMessageOnSnode] builds for the RPC. *)
Definition expireMessageOnSnode_params (ourPubKey : PubKey) (ourEd25519Key : HexKeyPair)
    (messageHash : string) (expiry : Z) (extend shorten : option bool)
    (signResult : SignResult) : ExpireParams :=
  {| pubkey := ourPubKey;
     pubkey_ed25519 := toUpperCase (pubKey ourEd25519Key);
     messages := [messageHash];
     expiry := expiry;
     extend := or_undefined extend;
     shorten := or_undefined shorten;
     signature := sig_signature signResult |}.

(** One element of [promises]: the node when the attempt on it succeeded,
    [undefined] when it did not, a rejection when it threw. *)
Definition expireMessageOnSnode_promise (params : ExpireParams) (usedNode : Snode)
    : M (Outcome (option Snode)) :=
  settle (let! successfulSend := expireOnNodes usedNode params in
          ret (if successfulSend : bool then Some usedNode else None)).

(** The attempts are run to completion one after the other, in swarm order.
    JavaScript starts them all before any answer is handled; which events
    an attempt produces, and with which arguments, is the same either way. *)
Definition expireMessageOnSnode (props : ExpireMessageOnSnodeProps) : M unit :=
  let messageHash := messageHash props in
  let expireTimer := expireTimer props in
  let extend := props_extend props in
  let shorten := props_shorten props in
  if truthy extend && truthy shorten
  then
    window_log error
      "[expireMessageOnSnode] We cannot extend and shorten a message at the same time";;
    ret tt
  else
    let shortenOrExtend := shortenOrExtend extend shorten in
    match getOurPubKeyFromCache, getUserED25519KeyPair with
    | Some ourPubKey, Some ourEd25519Key =>
        emit (SwarmLookup (key ourPubKey));;
        let swarm := getSwarmFor (key ourPubKey) in
        let! now := readNetworkTime in
        let expiry := now + expireTimer in
        let! signResult :=
          generateSignature (Some ourEd25519Key) shortenOrExtend expiry [messageHash] in
        match signResult with
        | None =>
            window_log error
              "[expireMessageOnSnode] Signing message expiry on swarm failed";;
            ret tt
        | Some signResult =>
            let params :=
              expireMessageOnSnode_params ourPubKey ourEd25519Key messageHash
                expiry extend shorten signResult in
            let usedNodes := take DEFAULT_CONNECTIONS swarm in
            if bool_decide (length usedNodes = 0%nat)
            then throw (EmptySwarmError (key ourPubKey) "Ran out of swarm nodes to query")
            else
              let! promises := mapM (expireMessageOnSnode_promise params) usedNodes in
              try_catch
                (let! firstSuccessSnode := lift (firstTrue promises) in
                 ret tt)
                (λ e,
                   window_log warn
                     ("loki_message:::expireMessage - by " +:+ key ourPubKey
                        +:+ " for " +:+ messageHash +:+ " via snode:null");;
                   throw e)
        end
    | _, _ =>
        window_log eror "[expireMessageOnSnode] No pubkey found";;
        ret tt
    end.

End expire.

(** ** Observations on traces *)

Definition is_clock (e : Event) : bool :=
  match e with Clock _ => true | _ => false end.

Definition is_sign (e : Event) : bool :=
  match e with Sign _ _ => true | _ => false end.

Definition is_signature_warning (e : Event) : bool :=
  match e with
  | Log warn text =>
      bool_decide (text = "loki_message:::expireMessage - Signature verification failed!")
  | _ => false
  end.

(** The warning [generateSignature] logs when signing throws. *)
Definition is_signing_warning (e : Event) : bool :=
  match e with
  | Log warn text => bool_decide (text = "generateSignature failed with: ")
  | _ => false
  end.

Definition signing_warnings (tr : Trace) : nat :=
  length (List.filter is_signing_warning tr).

(** How often the network clock was read, and how often libsodium was asked
    to sign. *)
Definition clock_reads (tr : Trace) : nat := length (List.filter is_clock tr).

Definition sign_calls (tr : Trace) : nat := length (List.filter is_sign tr).


(** The RPC calls of a trace, in order: the node contacted and what it was
    sent. *)
Fixpoint rpc_calls (tr : Trace) : list (Snode * RpcParams) :=
  match tr with
  | [] => []
  | Rpc targetNode params _ :: rest => (targetNode, params) :: rpc_calls rest
  | _ :: rest => rpc_calls rest
  end.

(** Events that stay on this machine: log lines and signature checks. *)
Definition is_local (e : Event) : bool :=
  match e with Log _ _ | Verify _ _ _ => true | _ => false end.

(** Local events other than the warning about a signature that failed. *)
Definition is_check (e : Event) : bool :=
  is_local e && negb (is_signature_warning e).

(** A computation is uniform when it never looks at the trace it extends. *)
Definition uniform {A} (m : M A) : Prop :=
  ∀ tr, m tr = (fst (m []), tr ++ snd (m [])).

(** A uniform computation all of whose events satisfy [P]. *)
Definition emits {A} (P : Event → Prop) (m : M A) : Prop :=
  uniform m ∧ Forall P (snd (m [])).



(** The expiry the coordinator computes when it is started after [tr]:
    the network time at its one clock read, plus the timer. *)
Definition expireMessageOnSnode_expiry `{Collaborators}
    (props : ExpireMessageOnSnodeProps) (ourPubKey : PubKey) (tr : Trace) : Z :=
  getNowWithNetworkOffset (tr ++ [SwarmLookup (key ourPubKey)]) + expireTimer props.

(** The bytes it asks libsodium to sign. *)
Definition expireMessageOnSnode_message `{Collaborators}
    (props : ExpireMessageOnSnodeProps) (ourPubKey : PubKey) (tr : Trace) : bytes :=
  StringUtils_encode
    (generateSignature_verificationString
       (shortenOrExtend (props_extend props) (props_shorten props))
       (expireMessageOnSnode_expiry props ourPubKey tr)
       [messageHash props]).

(** What it has done by the time the request is signed: looked up the
    swarm, read the clock once, logged and signed the canonical string. *)
Definition expireMessageOnSnode_prelude `{Collaborators}
    (props : ExpireMessageOnSnodeProps) (ourPubKey : PubKey)
    (secretKey : bytes) (tr : Trace) : Trace :=
  [SwarmLookup (key ourPubKey);
   Clock (getNowWithNetworkOffset (tr ++ [SwarmLookup (key ourPubKey)]));
   Log debug
     ("generateSignature verificationString "
        +:+ generateSignature_verificationString
              (shortenOrExtend (props_extend props) (props_shorten props))
              (expireMessageOnSnode_expiry props ourPubKey tr)
              [messageHash props]);
   Sign (expireMessageOnSnode_message props ourPubKey tr) secretKey].

Definition is_verify (e : Event) : bool :=
  match e with Verify _ _ _ => true | _ => false end.

(** How often libsodium was asked to verify. *)
Definition verify_calls (tr : Trace) : nat := length (List.filter is_verify tr).



(** The value of the promise [expireMessageOnSnode] makes for one node. *)
Definition promise_value `{Collaborators} (params : ExpireParams) (usedNode : Snode)
    : Outcome (option Snode) :=
  match fst (expireOnNodes usedNode params []) with
  | Returned true => Returned (Some usedNode)
  | Returned false => Returned None
  | Thrown e => Thrown e
  end.

(** ** The canonical strings as the specification words them *)

(** The tag, the action token, the timestamp in decimal and every hash in
    the given order, with nothing in between. *)
Definition buildSigningString (token : string) (timestamp : Z)
    (messageHashes : list string) : string :=
  "expire" +:+ token +:+ Number_toString timestamp
    +:+ foldr String.append "" messageHashes.

(** The HASH || EXPIRY string of one entry of the unchanged object. *)
Definition paired (kv : string * string) : string := kv.1 +:+ kv.2.

(** ** A small concrete world

    Toy collaborators on which the definitions can be run: hexadecimal and
    base64 decoding accept every string but a marked one, a signature is the
    secret key followed by the message, and time advances with every event. *)

Definition toy_decode (bad s : string) : Outcome bytes :=
  if bool_decide (s = bad) then Thrown (ForeignError "malformed input")
  else Returned (String.list_byte_of_string s).

Definition toy_sign (message secretKey : bytes) : Outcome bytes :=
  if bool_decide (secretKey = []) then Thrown (ForeignError "invalid privateKey length")
  else Returned (secretKey ++ message).

Definition toy_verify (sig message publicKey : bytes) : Outcome bool :=
  if bool_decide (length publicKey = 0%nat)
  then Thrown (ForeignError "invalid publicKey length")
  else Returned (bool_decide (String.string_of_list_byte sig
                               = String.string_of_list_byte (publicKey ++ message))).

Definition toy_firstTrue (promises : list (Outcome (option Snode)))
    : Outcome (option Snode) :=
  match List.filter (λ p, match p with Returned (Some _) => true | _ => false end) promises with
  | p :: _ => p
  | [] => Thrown (Error "firstTrue: no promise resolved to a truthy value")
  end.

Definition toy_world (ourPubKey : option PubKey) (ourEd25519Key : option HexKeyPair)
    (swarm : list Snode) (answer : Outcome (option Swarm)) : Collaborators :=
  {| fromHexToArray := toy_decode "zz";
     fromBase64ToArray := toy_decode "%%";
     fromUInt8ArrayToBase64 := String.string_of_list_byte;
     StringUtils_encode := String.list_byte_of_string;
     crypto_sign_detached := toy_sign;
     crypto_sign_verify_detached := toy_verify;
     getOurPubKeyFromCache := ourPubKey;
     getUserED25519KeyPair := ourEd25519Key;
     getSwarmFor := λ _, swarm;
     getNowWithNetworkOffset := λ tr, 1700000000000 + Z.of_nat (length tr);
     DEFAULT_CONNECTIONS := 2;
     snodeRpc := λ _ _ _, Returned (Some {| status := 200; body := "{...}" |});
     JSON_parse_swarm := λ _, answer;
     firstTrue := toy_firstTrue;
     window_log_has_eror := false |}.

Definition alice : PubKey := {| key := "05a11ce" |}.

Definition alice_ed25519 : HexKeyPair := {| pubKey := "abcd"; privKey := "5ec7e7" |}.

Definition node1 : Snode := {| ip := "10.0.0.1"; port := 22021; snode_pubkey_ed25519 := "aa01" |}.
Definition node2 : Snode := {| ip := "10.0.0.2"; port := 22021; snode_pubkey_ed25519 := "bb02" |}.
Definition node3 : Snode := {| ip := "10.0.0.3"; port := 22021; snode_pubkey_ed25519 := "cc03" |}.

(** An answer with one entry that carries a failure marker next to updated
    hashes, an expiry and a (wrong) signature, and one plain entry. *)
Definition failed_entry : SwarmEntry :=
  {| failed := JsString "unreachable"; updated := Some ["hashA"]; unchanged := None;
     entry_expiry := 1700000060000; entry_signature := "bogus" |}.

Definition plain_entry : SwarmEntry :=
  {| failed := JsUndefined; updated := Some ["hashA"];
     unchanged := Some [("hashC", "17"); ("hashB", "42")];
     entry_expiry := 1700000060000; entry_signature := "forged" |}.

Definition sample_answer : Swarm := [("aa01", failed_entry); ("bb02", plain_entry)].





Definition sample_props (extend shorten : option bool) : ExpireMessageOnSnodeProps :=
  {| messageHash := "hashA"; expireTimer := 60000;
     props_extend := extend; props_shorten := shorten |}.

(** * Conversation context menu

    [ts/components/menu/Menu.tsx]: every exported component reads some
    hooks and renders one [Item] (or, for the notification settings, one
    [Submenu]) or nothing.  A component is modelled as the function from
    what its hooks return to what it renders; a click handler is modelled by
    the calls it makes, in order, and the error it throws, if any. *)

(** ** What the hooks and imports of [Menu.tsx] provide *)

(** The members of [ConversationNotificationSetting]. *)
Inductive ConversationNotificationSettingType := all | disabled | mentions_only.

#[global] Instance ConversationNotificationSettingType_eq_dec :
  EqDecision ConversationNotificationSettingType.
Proof. solve_decision. Defined.

Record LastMessage := {
  interactionType : option string;
  interactionStatus : option string
}.

(** [getConversationController_get id] tells whether
    [getConversationController().get(id)] is a conversation; where it is
    not, [get] returns [undefined]. *)
Class MenuHooks := {
  useConvoIdFromContext : string;
  getConversationController_get : string → bool;
  useIsPublic : string → bool;
  useIsPrivate : string → bool;
  useIsPrivateAndFriend : string → bool;
  useIsIncomingRequest : string → bool;
  useIsKickedFromGroup : string → bool;
  useIsLeft : string → bool;
  useIsMe : string → bool;
  useIsBlinded : string → bool;
  useIsBlocked : string → bool;
  useHasNickname : string → bool;
  useWeAreAdmin : string → bool;
  useConversationUsername : string → option string;
  useAvatarPath : string → option string;
  useLastMessage : string → option LastMessage;
  getIsMessageSection : bool;
  useSelectedConversationKey : option string;
  useSelectedNotificationSetting : option ConversationNotificationSettingType;
  useSelectedIsBlocked : bool;
  useSelectedIsActive : bool;
  useSelectedIsLeft : bool;
  useSelectedIsKickedFromGroup : bool;
  useSelectedIsPrivateFriend : bool;
  useSelectedIsPrivate : bool;
  PubKey_hasBlindedPrefix : string → bool;
  ConversationNotificationSetting : list ConversationNotificationSettingType;
  ConversationInteractionType_Leave : string;
  ConversationInteractionStatus_Error : string;
  window_i18n : string → string
}.

(** ** What a component renders *)

(** A call a click handler makes.  A method call on a conversation object
    ([markAsUnread], [setDidApproveMe], [addOutgoingApprovalMessage]) is
    recorded with the id under which the object was looked up; the time
    passed to [addOutgoingApprovalMessage] and the buttons of the
    confirmation dialog are left out. *)
Inductive Action :=
| showInviteContactByConvoId (convoId : string)
| markAsUnread (conversationId : string) (forcedValue : bool)
| updateConfirmModal_delete1o1 (title message convoId : string)
    (fromSyncMessage justHidePrivate : bool)
| showLeaveGroupByConvoId (convoId username : string)
| updateUserDetailsModal (conversationId userName : string)
    (authorAvatarPath : option string)
| showUpdateGroupNameByConvoId (convoId : string)
| showRemoveModeratorsByConvoId (convoId : string)
| showAddModeratorsByConvoId (convoId : string)
| showUnbanUserByConvoId (convoId : string)
| showBanUserByConvoId (convoId : string)
| copyPublicKeyByConvoId (convoId : string)
| markAllReadByConvoId (convoId : string)
| unblockConvoById (convoId : string)
| blockConvoById (convoId : string)
| clearNickNameByConvoId (convoId : string)
| changeNickNameModal (conversationId : string)
| deleteAllMessagesByConvoIdWithConfirmation (convoId : string)
| showLeavePrivateConversationbyConvoId (convoId username : string)
| setDidApproveMe (convoId : string) (value : bool)
| addOutgoingApprovalMessage (convoId : string)
| approveConvoAndSendResponse (convoId : string) (syncToDevices : bool)
| declineConversationWithConfirm (conversationId : string)
    (syncToDevices blockContact : bool) (currentlySelectedConvo : option string)
| setNotificationForConvoId (selectedConvoId : string)
    (value : ConversationNotificationSettingType).

(** What a click handler does when it is run: the calls it makes, in
    order, and the error that ends it, if any. *)
Record Handler := {
  handler_calls : list Action;
  handler_throws : option JsError
}.

(** A handler that makes its calls and returns. *)
Definition calls (made : list Action) : Handler :=
  {| handler_calls := made; handler_throws := None |}.

(** [<Item onClick={...} disabled={...}>label</Item>] *)
Record Item := {
  item_label : string;
  item_onClick : Handler;
  item_disabled : bool
}.

(** [<Submenu label={...}>items</Submenu>], each item under its [key]. *)
Record Submenu := {
  submenu_label : string;
  submenu_items : list (ConversationNotificationSettingType * Item)
}.

(** [x || fallback] on a string that may be undefined. *)
Definition or_else (x : option string) (fallback : string) : string :=
  match x with
  | Some s => if bool_decide (s = "") then fallback else s
  | None => fallback
  end.

(** [x || undefined] on a string that may be undefined. *)
Definition string_or_undefined (x : option string) : option string :=
  match x with
  | Some s => if bool_decide (s = "") then None else Some s
  | None => None
  end.

Section menu.
Context `{MenuHooks}.

Definition InviteContactMenuItem : option Item :=
  let convoId := useConvoIdFromContext in
  let isPublic := useIsPublic convoId in
  if isPublic
  then Some {| item_label := window_i18n "inviteContacts";
               item_onClick := calls [showInviteContactByConvoId convoId];
               item_disabled := false |}
  else None.

(** [conversation?.markAsUnread(true)]: no call is made when the controller
    holds no conversation under the id. *)
Definition MarkConversationUnreadMenuItem : option Item :=
  let conversationId := useConvoIdFromContext in
  let isMessagesSection := getIsMessageSection in
  let isPrivate := useIsPrivate conversationId in
  let isPrivateAndFriend := useIsPrivateAndFriend conversationId in
  if isMessagesSection && (negb isPrivate || (isPrivate && isPrivateAndFriend))
  then
    let conversation := getConversationController_get conversationId in
    let markUnread :=
      if conversation then calls [markAsUnread conversationId true] else calls [] in
    Some {| item_label := window_i18n "markUnread";
            item_onClick := markUnread;
            item_disabled := false |}
  else None.

Definition DeletePrivateContactMenuItem : option Item :=
  let convoId := useConvoIdFromContext in
  let isPrivate := useIsPrivate convoId in
  let isRequest := useIsIncomingRequest convoId in
  if isPrivate && negb isRequest
  then
    let menuItemText := window_i18n "editMenuDeleteContact" in
    Some {| item_label := menuItemText;
            item_onClick :=
              calls
              [updateConfirmModal_delete1o1 menuItemText
                (window_i18n "deleteContactConfirmation") convoId false false];
            item_disabled := false |}
  else None.

Definition LeaveGroupOrCommunityMenuItem : option Item :=
  let convoId := useConvoIdFromContext in
  let username := or_else (useConversationUsername convoId) convoId in
  let isLeft := useIsLeft convoId in
  let isKickedFromGroup := useIsKickedFromGroup convoId in
  let isPrivate := useIsPrivate convoId in
  let isPublic := useIsPublic convoId in
  let lastMessage := useLastMessage convoId in
  if negb isKickedFromGroup && negb isLeft && negb isPrivate
  then
    Some {| item_label :=
              if isPublic then window_i18n "leaveCommunity"
              else if bool_decide
                        ((lastMessage ≫= interactionType)
                         = Some ConversationInteractionType_Leave)
                      && bool_decide
                           ((lastMessage ≫= interactionStatus)
                            = Some ConversationInteractionStatus_Error)
              then window_i18n "deleteConversation"
              else window_i18n "leaveGroup";
            item_onClick := calls [showLeaveGroupByConvoId convoId username];
            item_disabled := false |}
  else None.

Definition ShowUserDetailsMenuItem : option Item :=
  let convoId := useConvoIdFromContext in
  let isPrivate := useIsPrivate convoId in
  let avatarPath := useAvatarPath convoId in
  let userName := or_else (useConversationUsername convoId) convoId in
  let isBlinded := useIsBlinded convoId in
  if isPrivate && negb isBlinded
  then Some {| item_label := window_i18n "showUserDetails";
               item_onClick := calls [updateUserDetailsModal convoId userName avatarPath];
               item_disabled := false |}
  else None.

Definition UpdateGroupNameMenuItem : option Item :=
  let convoId := useConvoIdFromContext in
  let left := useIsLeft convoId in
  let isKickedFromGroup := useIsKickedFromGroup convoId in
  let weAreAdmin := useWeAreAdmin convoId in
  if negb isKickedFromGroup && negb left && weAreAdmin
  then Some {| item_label := window_i18n "editGroup";
               item_onClick := calls [showUpdateGroupNameByConvoId convoId];
               item_disabled := false |}
  else None.

Definition RemoveModeratorsMenuItem : option Item :=
  let convoId := useConvoIdFromContext in
  let isPublic := useIsPublic convoId in
  let isKickedFromGroup := useIsKickedFromGroup convoId in
  let weAreAdmin := useWeAreAdmin convoId in
  if negb isKickedFromGroup && weAreAdmin && isPublic
  then Some {| item_label := window_i18n "removeModerators";
               item_onClick := calls [showRemoveModeratorsByConvoId convoId];
               item_disabled := false |}
  else None.

Definition AddModeratorsMenuItem : option Item :=
  let convoId := useConvoIdFromContext in
  let isPublic := useIsPublic convoId in
  let isKickedFromGroup := useIsKickedFromGroup convoId in
  let weAreAdmin := useWeAreAdmin convoId in
  if negb isKickedFromGroup && weAreAdmin && isPublic
  then Some {| item_label := window_i18n "addModerators";
               item_onClick := calls [showAddModeratorsByConvoId convoId];
               item_disabled := false |}
  else None.

Definition UnbanMenuItem : option Item :=
  let convoId := useConvoIdFromContext in
  let isPublic := useIsPublic convoId in
  let isKickedFromGroup := useIsKickedFromGroup convoId in
  let weAreAdmin := useWeAreAdmin convoId in
  if isPublic && negb isKickedFromGroup && weAreAdmin
  then Some {| item_label := window_i18n "unbanUser";
               item_onClick := calls [showUnbanUserByConvoId convoId];
               item_disabled := false |}
  else None.

Definition BanMenuItem : option Item :=
  let convoId := useConvoIdFromContext in
  let isPublic := useIsPublic convoId in
  let isKickedFromGroup := useIsKickedFromGroup convoId in
  let weAreAdmin := useWeAreAdmin convoId in
  if isPublic && negb isKickedFromGroup && weAreAdmin
  then Some {| item_label := window_i18n "banUser";
               item_onClick := calls [showBanUserByConvoId convoId];
               item_disabled := false |}
  else None.

Definition CopyMenuItem : option Item :=
  let convoId := useConvoIdFromContext in
  let isPublic := useIsPublic convoId in
  let isPrivate := useIsPrivate convoId in
  let isBlinded := useIsBlinded convoId in
  if (isPrivate && negb isBlinded) || isPublic
  then
    let copyIdLabel :=
      if isPublic then window_i18n "copyOpenGroupURL" else window_i18n "copySessionID" in
    Some {| item_label := copyIdLabel;
            item_onClick := calls [copyPublicKeyByConvoId convoId];
            item_disabled := false |}
  else None.

Definition MarkAllReadMenuItem : option Item :=
  let convoId := useConvoIdFromContext in
  let isIncomingRequest := useIsIncomingRequest convoId in
  if negb isIncomingRequest && negb (PubKey_hasBlindedPrefix convoId)
  then Some {| item_label := window_i18n "markAllAsRead";
               item_onClick := calls [markAllReadByConvoId convoId];
               item_disabled := false |}
  else None.

Definition BlockMenuItem : option Item :=
  let convoId := useConvoIdFromContext in
  let isMe := useIsMe convoId in
  let isBlocked := useIsBlocked convoId in
  let isPrivate := useIsPrivate convoId in
  let isIncomingRequest := useIsIncomingRequest convoId in
  if negb isMe && isPrivate && negb isIncomingRequest
     && negb (PubKey_hasBlindedPrefix convoId)
  then
    let blockTitle := if isBlocked then window_i18n "unblock" else window_i18n "block" in
    let blockHandler :=
      if isBlocked then unblockConvoById convoId else blockConvoById convoId in
    Some {| item_label := blockTitle;
            item_onClick := calls [blockHandler];
            item_disabled := false |}
  else None.

Definition ClearNicknameMenuItem : option Item :=
  let convoId := useConvoIdFromContext in
  let isMe := useIsMe convoId in
  let hasNickname := useHasNickname convoId in
  let isPrivate := useIsPrivate convoId in
  let isPrivateAndFriend := useIsPrivateAndFriend convoId in
  if isMe || negb hasNickname || negb isPrivate || negb isPrivateAndFriend
  then None
  else Some {| item_label := window_i18n "clearNickname";
               item_onClick := calls [clearNickNameByConvoId convoId];
               item_disabled := false |}.

Definition ChangeNicknameMenuItem : option Item :=
  let convoId := useConvoIdFromContext in
  let isMe := useIsMe convoId in
  let isPrivate := useIsPrivate convoId in
  let isPrivateAndFriend := useIsPrivateAndFriend convoId in
  if isMe || negb isPrivate || negb isPrivateAndFriend
  then None
  else Some {| item_label := window_i18n "changeNickname";
               item_onClick := calls [changeNickNameModal convoId];
               item_disabled := false |}.

Definition DeleteMessagesMenuItem : option Item :=
  let convoId := useConvoIdFromContext in
  if bool_decide (convoId = "")
  then None
  else Some {| item_label := window_i18n "deleteMessages";
               item_onClick := calls [deleteAllMessagesByConvoIdWithConfirmation convoId];
               item_disabled := false |}.

Definition DeletePrivateConversationMenuItem : option Item :=
  let convoId := useConvoIdFromContext in
  let username := or_else (useConversationUsername convoId) convoId in
  let isRequest := useIsIncomingRequest convoId in
  let isPrivate := useIsPrivate convoId in
  let isMe := useIsMe convoId in
  if bool_decide (convoId = "") || negb isPrivate || isRequest
  then None
  else Some {| item_label :=
                 if isMe then window_i18n "hideConversation"
                 else window_i18n "deleteConversation";
               item_onClick := calls [showLeavePrivateConversationbyConvoId convoId username];
               item_disabled := false |}.

(** The handler awaits two method calls on the conversation looked up
    under [convoId] and then [approveConvoAndSendResponse]; the first
    method call is on [undefined], a [TypeError], when the controller holds
    no conversation under the id. *)
Definition AcceptMsgRequestMenuItem : option Item :=
  let convoId := useConvoIdFromContext in
  let isRequest := useIsIncomingRequest convoId in
  let convo := getConversationController_get convoId in
  let isPrivate := useIsPrivate convoId in
  if isRequest && isPrivate
  then Some {| item_label := window_i18n "accept";
               item_onClick :=
                 if convo
                 then calls [setDidApproveMe convoId true;
                             addOutgoingApprovalMessage convoId;
                             approveConvoAndSendResponse convoId true]
                 else {| handler_calls := [];
                         handler_throws :=
                           Some (TypeError
                                   "Cannot read properties of undefined (reading 'setDidApproveMe')") |};
               item_disabled := false |}
  else None.

Definition DeclineMsgRequestMenuItem : option Item :=
  let convoId := useConvoIdFromContext in
  let isRequest := useIsIncomingRequest convoId in
  let isPrivate := useIsPrivate convoId in
  let selected := useSelectedConversationKey in
  if isPrivate && isRequest
  then Some {| item_label := window_i18n "decline";
               item_onClick :=
                 calls [declineConversationWithConfirm convoId true false
                          (string_or_undefined selected)];
               item_disabled := false |}
  else None.

Definition DeclineAndBlockMsgRequestMenuItem : option Item :=
  let convoId := useConvoIdFromContext in
  let isRequest := useIsIncomingRequest convoId in
  let selected := useSelectedConversationKey in
  let isPrivate := useIsPrivate convoId in
  if isRequest && isPrivate
  then Some {| item_label := window_i18n "block";
               item_onClick :=
                 calls [declineConversationWithConfirm convoId true true
                          (string_or_undefined selected)];
               item_disabled := false |}
  else None.

(** The localizer key of one notification setting. *)
Definition NotificationForConvoMenuItem_keyToUse
    (n : ConversationNotificationSettingType) : string :=
  match n with
  | all => "notificationForConvo_all"
  | disabled => "notificationForConvo_disabled"
  | mentions_only => "notificationForConvo_mentions_only"
  end.

(** [ConversationNotificationSetting.filter(...).map(...)]: the settings on
    offer, with their names; mentions-only is left out for private chats. *)
Definition NotificationForConvoMenuItem_options (isPrivate : bool)
    : list (ConversationNotificationSettingType * string) :=
  (λ n, (n, window_i18n (NotificationForConvoMenuItem_keyToUse n)))
    <$> List.filter
          (λ n, if isPrivate
                then match n with mentions_only => false | _ => true end
                else true)
          ConversationNotificationSetting.

Definition NotificationForConvoMenuItem : option Submenu :=
  let currentNotificationSetting := useSelectedNotificationSetting in
  let isBlocked := useSelectedIsBlocked in
  let isActive := useSelectedIsActive in
  let isLeft := useSelectedIsLeft in
  let isKickedFromGroup := useSelectedIsKickedFromGroup in
  let isFriend := useSelectedIsPrivateFriend in
  let isPrivate := useSelectedIsPrivate in
  match string_or_undefined useSelectedConversationKey with
  | None => None
  | Some selectedConvoId =>
      if isLeft || isKickedFromGroup || isBlocked || negb isActive
         || (isPrivate && negb isFriend)
      then None
      else
        let notificationForConvoOptions :=
          NotificationForConvoMenuItem_options isPrivate in
        Some {| submenu_label := window_i18n "notificationForConvo";
                submenu_items :=
                  (λ item : ConversationNotificationSettingType * string,
                     let disabled :=
                       bool_decide (Some item.1 = currentNotificationSetting) in
                     (item.1,
                      {| item_label := item.2;
                         item_onClick := calls [setNotificationForConvoId selectedConvoId item.1];
                         item_disabled := disabled |}))
                    <$> notificationForConvoOptions |}
  end.

End menu.

(** The conversation ids a call carries: the conversation acted on first,
    then, for [declineConversationWithConfirm], the currently selected
    conversation when one is passed. *)
Definition Action_conversationIds (a : Action) : list string :=
  match a with
  | declineConversationWithConfirm c _ _ currentlySelectedConvo =>
      c :: option_list currentlySelectedConvo
  | showInviteContactByConvoId c
  | markAsUnread c _
  | updateConfirmModal_delete1o1 _ _ c _ _
  | showLeaveGroupByConvoId c _
  | updateUserDetailsModal c _ _
  | showUpdateGroupNameByConvoId c
  | showRemoveModeratorsByConvoId c
  | showAddModeratorsByConvoId c
  | showUnbanUserByConvoId c
  | showBanUserByConvoId c
  | copyPublicKeyByConvoId c
  | markAllReadByConvoId c
  | unblockConvoById c
  | blockConvoById c
  | clearNickNameByConvoId c
  | changeNickNameModal c
  | deleteAllMessagesByConvoIdWithConfirmation c
  | showLeavePrivateConversationbyConvoId c _
  | setDidApproveMe c _
  | addOutgoingApprovalMessage c
  | approveConvoAndSendResponse c _
  | setNotificationForConvoId c _ => [c]
  end.

(** The items of the conversation context menu, in the order of the file. *)
Definition conversation_menu_items `{MenuHooks} : list (option Item) :=
  [InviteContactMenuItem; MarkConversationUnreadMenuItem;
   DeletePrivateContactMenuItem; LeaveGroupOrCommunityMenuItem;
   ShowUserDetailsMenuItem; UpdateGroupNameMenuItem; RemoveModeratorsMenuItem;
   AddModeratorsMenuItem; UnbanMenuItem; BanMenuItem; CopyMenuItem;
   MarkAllReadMenuItem; BlockMenuItem; ClearNicknameMenuItem;
   ChangeNicknameMenuItem; DeleteMessagesMenuItem;
   DeletePrivateConversationMenuItem; AcceptMsgRequestMenuItem;
   DeclineMsgRequestMenuItem; DeclineAndBlockMsgRequestMenuItem].

(** A conversation on which the components can be run. *)
Definition toy_hooks (convoId : string) (isPublic isPrivate isFriend isRequest isMe
    hasNickname weAreAdmin : bool)
    (selected : option string)
    (current : option ConversationNotificationSettingType) : MenuHooks :=
  {| useConvoIdFromContext := convoId;
     getConversationController_get := λ id, bool_decide (id = convoId);
     useIsPublic := λ _, isPublic;
     useIsPrivate := λ _, isPrivate;
     useIsPrivateAndFriend := λ _, isFriend;
     useIsIncomingRequest := λ _, isRequest;
     useIsKickedFromGroup := λ _, false;
     useIsLeft := λ _, false;
     useIsMe := λ _, isMe;
     useIsBlinded := λ _, false;
     useIsBlocked := λ _, false;
     useHasNickname := λ _, hasNickname;
     useWeAreAdmin := λ _, weAreAdmin;
     useConversationUsername := λ _, Some "Bob";
     useAvatarPath := λ _, None;
     useLastMessage := λ _, None;
     getIsMessageSection := true;
     useSelectedConversationKey := selected;
     useSelectedNotificationSetting := current;
     useSelectedIsBlocked := false;
     useSelectedIsActive := true;
     useSelectedIsLeft := false;
     useSelectedIsKickedFromGroup := false;
     useSelectedIsPrivateFriend := isFriend;
     useSelectedIsPrivate := isPrivate;
     PubKey_hasBlindedPrefix := λ _, false;
     ConversationNotificationSetting := [all; disabled; mentions_only];
     ConversationInteractionType_Leave := "leave";
     ConversationInteractionStatus_Error := "error";
     window_i18n := λ k, k |}.

(** * Strings *)

Lemma String_app_nil_l (s : string) : "" +:+ s = s.
Proof. reflexivity. Qed.

Lemma String_app_cons (c : ascii) (s r : string) :
  String c s +:+ r = String c (s +:+ r).
Proof. reflexivity. Qed.

Lemma String_app_nil_r (s : string) : s +:+ "" = s.
Proof.
  induction s as [|c s IH]; [done|]. by rewrite String_app_cons, IH.
Qed.

Lemma Array_join_no_separator (items : list string) :
  Array_join "" items = foldr String.append "" items.
Proof.
  induction items as [|x [|y rest] IH]; simpl in *.
  - done.
  - by rewrite String_app_nil_r.
  - by rewrite String_app_nil_l, IH.
Qed.

(** Two concatenations that agree and start with blocks of one length
    agree block by block. *)
Lemma String_app_inj_length (a b r1 r2 : string) :
  String.length a = String.length b →
  a +:+ r1 = b +:+ r2 → a = b ∧ r1 = r2.
Proof.
  revert b. induction a as [|x a IH]; intros [|y b] Hlen Heq;
    rewrite ?String_app_cons, ?String_app_nil_l in Heq;
    simplify_eq/=; [done|].
  destruct (IH b) as [-> ->]; done.
Qed.

Lemma foldr_append_inj_length (n : nat) (l1 l2 : list string) :
  Forall (λ h, String.length h = n) l1 →
  Forall (λ h, String.length h = n) l2 →
  length l1 = length l2 →
  foldr String.append "" l1 = foldr String.append "" l2 → l1 = l2.
Proof.
  intros H1. revert l2.
  induction H1 as [|x l1 Hx _ IH]; intros [|y l2] H2 Hlen Heq;
    simplify_eq/=; [done|].
  apply Forall_cons in H2 as [Hy H2].
  apply String_app_inj_length in Heq as [-> Heq]; [|congruence].
  f_equal. by apply IH.
Qed.

(** The decimal numeral of a number reads back as that number. *)
Lemma Number_toString_decimal (n : Z) :
  Z.of_int <$> NilZero.int_of_string (Number_toString n) = Some n.
Proof.
  unfold Number_toString. rewrite NilZero.isi.
  - simpl. by rewrite DecimalZ.of_to.
  - destruct n; simpl; [done| |done].
    intros [= Hp]. by apply DecimalPos.Unsigned.to_uint_nonnil in Hp.
  - destruct n; simpl; [done..|].
    intros [= Hp]. by apply DecimalPos.Unsigned.to_uint_nonnil in Hp.
Qed.

(** Sorting forgets the order the entries came in. *)
Lemma Array_sort_Permutation (l1 l2 : list string) :
  l1 ≡ₚ l2 → Array_sort l1 = Array_sort l2.
Proof.
  intros Hperm. unfold Array_sort.
  apply (Sorted_unique String.le); [apply Sorted_merge_sort; apply _..|].
  by rewrite !merge_sort_Permutation.
Qed.

(** Whatever procedure sorts, it returns the list of [Array_sort]. *)
Lemma Array_sort_unique (l sorted : list string) :
  Sorted String.le sorted → sorted ≡ₚ l → sorted = Array_sort l.
Proof.
  intros Hs Hp. unfold Array_sort.
  apply (Sorted_unique String.le); [done | apply Sorted_merge_sort; apply _ |].
  by rewrite merge_sort_Permutation.
Qed.

(** * The monad *)

Lemma uniform_ret {A} (a : A) : uniform (ret a).
Proof. intros tr. unfold ret. simpl. by rewrite app_nil_r. Qed.

Lemma uniform_throw {A} (e : JsError) : uniform (@throw A e).
Proof. intros tr. unfold throw. simpl. by rewrite app_nil_r. Qed.

Lemma uniform_lift {A} (o : Outcome A) : uniform (lift o).
Proof. intros tr. unfold lift. simpl. by rewrite app_nil_r. Qed.

Lemma uniform_emit (e : Event) : uniform (emit e).
Proof. intros tr. done. Qed.

Lemma uniform_bind {A B} (m : M A) (k : A → M B) :
  uniform m → (∀ a, uniform (k a)) → uniform (bind m k).
Proof.
  intros Hm Hk tr. unfold bind. rewrite (Hm tr).
  destruct (m []) as [[a|e] tr1]; simpl.
  - rewrite (Hk a (tr ++ tr1)), (Hk a tr1). simpl. by rewrite app_assoc.
  - done.
Qed.

Lemma uniform_try_catch {A} (m : M A) (h : JsError → M A) :
  uniform m → (∀ e, uniform (h e)) → uniform (try_catch m h).
Proof.
  intros Hm Hh tr. unfold try_catch. rewrite (Hm tr).
  destruct (m []) as [[a|e] tr1]; simpl.
  - done.
  - rewrite (Hh e (tr ++ tr1)), (Hh e tr1). simpl. by rewrite app_assoc.
Qed.

Lemma uniform_settle {A} (m : M A) : uniform m → uniform (settle m).
Proof.
  intros Hm tr. unfold settle. rewrite (Hm tr).
  by destruct (m []) as [o tr1].
Qed.

Lemma count_app (p : Event → bool) (tr1 tr2 : Trace) :
  length (List.filter p (tr1 ++ tr2))
  = (length (List.filter p tr1) + length (List.filter p tr2))%nat.
Proof. by rewrite List.filter_app, length_app. Qed.

Lemma rpc_calls_app (tr1 tr2 : Trace) :
  rpc_calls (tr1 ++ tr2) = rpc_calls tr1 ++ rpc_calls tr2.
Proof.
  induction tr1 as [|e tr1 IH]; simpl; [done|].
  destruct e; simpl; by rewrite ?IH.
Qed.

(** * The signing string *)

Lemma generateSignature_verificationString_spec token timestamp messageHashes :
  generateSignature_verificationString token timestamp messageHashes
  = buildSigningString token timestamp messageHashes.
Proof.
  unfold generateSignature_verificationString, buildSigningString.
  by rewrite Array_join_no_separator.
Qed.

(** C1. The string [generateSignature] hands to libsodium is the tag
    "expire", the action token, the timestamp in decimal and the message
    hashes in the order given, with no separators; the token is empty when
    neither extend nor shorten is asked for.  Once the secret key has been
    decoded, that string (encoded) is what is signed, after being logged. *)
Theorem generateSignature_signs_canonical_string `{Collaborators}
    (keypair : HexKeyPair) (secretKey : bytes) (token : string)
    (timestamp : Z) (messageHashes : list string) (tr : Trace) :
  fromHexToArray (privKey keypair) = Returned secretKey →
  generateSignature_verificationString token timestamp messageHashes
  = "expire" +:+ token +:+ Number_toString timestamp
      +:+ foldr String.append "" messageHashes
  ∧ Z.of_int <$> NilZero.int_of_string (Number_toString timestamp) = Some timestamp
  ∧ (∀ extend shorten,
       truthy extend = false → truthy shorten = false →
       shortenOrExtend extend shorten = "")
  ∧ ∃ result rest,
      generateSignature (Some keypair) token timestamp messageHashes tr
      = (result,
         tr ++ [Log debug ("generateSignature verificationString "
                             +:+ buildSigningString token timestamp messageHashes);
                Sign (StringUtils_encode
                        (buildSigningString token timestamp messageHashes))
                     secretKey] ++ rest)
      ∧ sign_calls rest = 0%nat.
Proof.
  intros Hkey. split; [apply generateSignature_verificationString_spec|].
  split; [apply Number_toString_decimal|]. split.
  { intros e s He Hs. unfold shortenOrExtend. by rewrite He, Hs. }
  unfold generateSignature, bind, try_catch, lift, emit, ret. simpl.
  rewrite Hkey, generateSignature_verificationString_spec.
  destruct (crypto_sign_detached _ _) as [sg|e]; simpl.
  - eexists _, []. split; [|done]. by rewrite <- app_assoc.
  - eexists _, _. split; [rewrite <- !app_assoc; simpl; reflexivity | done].
Qed.

Lemma generateSignature_signs_canonical_string_witness :
  fromHexToArray (Collaborators := toy_world (Some alice) (Some alice_ed25519) [] (Returned None))
    (privKey alice_ed25519)
  = Returned (String.list_byte_of_string "5ec7e7")
  ∧ generateSignature_verificationString "extend" 1700000060000 ["hashA"; "hashB"]
    = "expireextend1700000060000hashAhashB".
Proof.
  split; [reflexivity|].
  pose proof (generateSignature_signs_canonical_string
                (H := toy_world (Some alice) (Some alice_ed25519) [] (Returned None))
                alice_ed25519 (String.list_byte_of_string "5ec7e7")
                "extend" 1700000060000 ["hashA"; "hashB"] [] eq_refl) as [Hs _].
  exact Hs.
Defined.

(** * The verification string *)

Lemma verifySignature_hashes_sorted messageHashes updatedHashes
    (entries : list (string * string)) :
  verifySignature_hashes messageHashes updatedHashes (Some entries)
  = messageHashes ++ updatedHashes ++ Array_sort (paired <$> entries).
Proof.
  unfold verifySignature_hashes. case_bool_decide as Hlen.
  - by rewrite <- app_assoc.
  - destruct entries; simpl in *; [|lia].
    by rewrite !app_nil_r.
Qed.

(** C2. Two unchanged objects with the same entries in different orders give
    the same verification string: the HASH || EXPIRY strings are appended in
    ascending order of the paired string, after the requested and the
    updated hashes; and an empty unchanged object adds nothing at all. *)
Theorem verificationString_ignores_entry_order
    (pubkey : PubKey) (expiryApplied : Z) (messageHashes updatedHashes : list string)
    (entries1 entries2 : list (string * string)) :
  entries1 ≡ₚ entries2 →
  verifySignature_verificationString pubkey expiryApplied
    messageHashes updatedHashes (Some entries1)
  = verifySignature_verificationString pubkey expiryApplied
      messageHashes updatedHashes (Some entries2)
  ∧ (∃ pairs,
       verifySignature_verificationString pubkey expiryApplied
         messageHashes updatedHashes (Some entries1)
       = key pubkey +:+ Number_toString expiryApplied
           +:+ foldr String.append "" (messageHashes ++ updatedHashes ++ pairs)
       ∧ Sorted String.le pairs
       ∧ pairs ≡ₚ paired <$> entries1)
  ∧ verifySignature_verificationString pubkey expiryApplied
      messageHashes updatedHashes (Some [])
    = key pubkey +:+ Number_toString expiryApplied
        +:+ foldr String.append "" (messageHashes ++ updatedHashes)
  ∧ verifySignature_verificationString pubkey expiryApplied
      messageHashes updatedHashes (Some [])
    = verifySignature_verificationString pubkey expiryApplied
        messageHashes updatedHashes None.
Proof.
  intros Hperm. unfold verifySignature_verificationString.
  rewrite !verifySignature_hashes_sorted, !Array_join_no_separator.
  repeat split.
  - rewrite (Array_sort_Permutation (paired <$> entries1) (paired <$> entries2));
      [done|]. by apply fmap_Permutation.
  - exists (Array_sort (paired <$> entries1)). split; [done|]. split.
    + apply Sorted_merge_sort; apply _.
    + apply merge_sort_Permutation.
  - simpl. by rewrite !app_nil_r.
  - unfold verifySignature_hashes. simpl. by rewrite !app_nil_r.
Qed.

Lemma verificationString_ignores_entry_order_witness :
  [("hashC", "17"); ("hashB", "42")] ≡ₚ [("hashB", "42"); ("hashC", "17")]
  ∧ verifySignature_verificationString alice 1700000060000 ["hashA"] ["hashA"]
      (Some [("hashC", "17"); ("hashB", "42")])
    = verifySignature_verificationString alice 1700000060000 ["hashA"] ["hashA"]
        (Some [("hashB", "42"); ("hashC", "17")]).
Proof.
  split; [apply perm_swap|].
  apply (verificationString_ignores_entry_order alice 1700000060000
           ["hashA"] ["hashA"] [("hashC", "17"); ("hashB", "42")]
           [("hashB", "42"); ("hashC", "17")]).
  apply perm_swap.
Defined.

Example verificationString_sample :
  verifySignature_verificationString alice 1700000060000 ["hashA"] ["hashA"]
    (Some [("hashC", "17"); ("hashB", "42")])
  = "05a11ce1700000060000hashAhashAhashB42hashC17".
Proof. vm_compute. reflexivity. Qed.

(** * Order of the message hashes in the signing string *)

(** C3, as stated, fails: hashes of different lengths can be reordered
    without changing the concatenation. *)
Lemma signing_string_order_counterexample :
  ["a"; "aa"] ≡ₚ ["aa"; "a"]
  ∧ ["a"; "aa"] ≠ ["aa"; "a"]
  ∧ generateSignature_verificationString "" 1700000060000 ["a"; "aa"]
    = generateSignature_verificationString "" 1700000060000 ["aa"; "a"].
Proof. split; [apply perm_swap|]. split; [discriminate|reflexivity]. Qed.

(** C3, amended. The signing string is a function of the token, the
    timestamp and the hash sequence; and when all hashes have one length,
    two different orderings of the same hashes give different strings. *)
Theorem signing_string_order_sensitive
    (n : nat) (token : string) (timestamp : Z) (hashes1 hashes2 : list string) :
  Forall (λ h, String.length h = n) hashes1 →
  hashes1 ≡ₚ hashes2 →
  hashes1 ≠ hashes2 →
  (∀ token' timestamp' hashes',
     token = token' → timestamp = timestamp' → hashes1 = hashes' →
     generateSignature_verificationString token timestamp hashes1
     = generateSignature_verificationString token' timestamp' hashes')
  ∧ generateSignature_verificationString token timestamp hashes1
    ≠ generateSignature_verificationString token timestamp hashes2.
Proof.
  intros Hlen Hperm Hne. split; [by intros ??? -> -> ->|].
  rewrite !generateSignature_verificationString_spec. unfold buildSigningString.
  intros Heq. apply Hne.
  do 3 apply (inj (String.append _)) in Heq.
  apply (foldr_append_inj_length n); [done| |by apply Permutation_length|done].
  by rewrite <- Hperm.
Qed.

Lemma signing_string_order_sensitive_witness :
  generateSignature_verificationString "shorten" 1700000060000 ["hashA"; "hashB"]
  ≠ generateSignature_verificationString "shorten" 1700000060000 ["hashB"; "hashA"].
Proof.
  apply (signing_string_order_sensitive 5 "shorten" 1700000060000
           ["hashA"; "hashB"] ["hashB"; "hashA"]).
  - repeat constructor.
  - apply perm_swap.
  - discriminate.
Defined.

(** * Events of a computation *)

Lemma emits_run {A} P (m : M A) (tr : Trace) :
  emits P m → ∃ o ev, m tr = (o, tr ++ ev) ∧ Forall P ev ∧ m [] = (o, ev).
Proof.
  intros [Hu HP]. exists (fst (m [])), (snd (m [])).
  split; [apply Hu|]. split; [done|]. by destruct (m []).
Qed.

Lemma emits_weaken {A} (P Q : Event → Prop) (m : M A) :
  (∀ e, P e → Q e) → emits P m → emits Q m.
Proof. intros HPQ [Hu HP]. split; [done|]. by eapply Forall_impl. Qed.

Lemma emits_ret {A} P (a : A) : emits P (ret a).
Proof. split; [apply uniform_ret | by constructor]. Qed.

Lemma emits_throw {A} P (e : JsError) : emits P (@throw A e).
Proof. split; [apply uniform_throw | by constructor]. Qed.

Lemma emits_lift {A} P (o : Outcome A) : emits P (lift o).
Proof. split; [apply uniform_lift | by constructor]. Qed.

Lemma emits_emit (P : Event → Prop) (e : Event) : P e → emits P (emit e).
Proof. intros He. split; [apply uniform_emit | by repeat constructor]. Qed.

Lemma emits_bind {A B} P (m : M A) (k : A → M B) :
  emits P m → (∀ a, emits P (k a)) → emits P (bind m k).
Proof.
  intros [Hm Pm] Hk. split.
  - apply uniform_bind; [done|]. intros a. apply Hk.
  - unfold bind. destruct (m []) as [[a|e] tr1]; simpl in *; [|done].
    destruct (Hk a) as [Hu Pk]. rewrite (Hu tr1). simpl.
    by apply Forall_app.
Qed.

Lemma emits_try_catch {A} P (m : M A) (h : JsError → M A) :
  emits P m → (∀ e, emits P (h e)) → emits P (try_catch m h).
Proof.
  intros [Hm Pm] Hh. split.
  - apply uniform_try_catch; [done|]. intros e. apply Hh.
  - unfold try_catch. destruct (m []) as [[a|e] tr1]; simpl in *; [done|].
    destruct (Hh e) as [Hu Ph]. rewrite (Hu tr1). simpl.
    by apply Forall_app.
Qed.

Lemma emits_settle {A} P (m : M A) : emits P m → emits P (settle m).
Proof.
  intros [Hm Pm]. split; [by apply uniform_settle|].
  unfold settle. by destruct (m []).
Qed.

Lemma emits_mapM {A B} P (f : A → M B) (l : list A) :
  (∀ a, emits P (f a)) → emits P (mapM f l).
Proof.
  intros Hf. induction l as [|x l IH]; simpl.
  - apply emits_ret.
  - apply emits_bind; [done|]. intros y.
    apply emits_bind; [done|]. intros ys. apply emits_ret.
Qed.

Lemma emits_window_log `{Collaborators} (P : Event → Prop) method text :
  (∀ m t, P (Log m t)) → emits P (window_log method text).
Proof.
  intros HP. destruct method; simpl; try by apply emits_emit.
  destruct window_log_has_eror; [by apply emits_emit | apply emits_throw].
Qed.

Ltac emits :=
  repeat first
    [ progress intros
    | apply emits_bind
    | apply emits_try_catch
    | apply emits_mapM
    | apply emits_settle
    | apply emits_ret
    | apply emits_throw
    | apply emits_lift
    | apply emits_window_log; done
    | apply emits_emit; done
    | progress simpl window_log
    | match goal with
      | |- emits _ (if ?b then _ else _) => destruct b
      | |- emits _ (match ?x with _ => _ end) => destruct x
      end ].



Lemma local_events_counts (ev : Trace) :
  Forall is_local ev →
  rpc_calls ev = [] ∧ clock_reads ev = 0%nat ∧ sign_calls ev = 0%nat.
Proof.
  unfold clock_reads, sign_calls.
  induction 1 as [|e ev He _ IH]; [done|].
  destruct e; simpl in *; done.
Qed.

(** * Checking a node's signature *)

Lemma emits_verifySignature `{Collaborators} pubkey snodePubkey expiryApplied
    signature messageHashes updatedHashes unchangedHashes :
  emits is_check
    (verifySignature pubkey snodePubkey expiryApplied signature
       messageHashes updatedHashes unchangedHashes).
Proof. unfold verifySignature. emits. Qed.

(** With a zero expiry, no requested hash or no signature the guard stops
    [verifySignature] before anything is decoded. *)
Lemma verifySignature_guard_run `{Collaborators}
    (pubkey : PubKey) (snodePubkey : string) (expiryApplied : Z)
    (signature : string) (messageHashes : list string)
    (updatedHashes : option (list string))
    (unchangedHashes : option (list (string * string))) (tr : Trace) :
  expiryApplied = 0 ∨ messageHashes = [] ∨ signature = "" →
  verifySignature pubkey snodePubkey expiryApplied signature
    messageHashes updatedHashes unchangedHashes tr
  = (Returned false, tr ++ [Log warn "verifySignature missing argument"]).
Proof.
  intros Hmissing. unfold verifySignature.
  assert (bool_decide (expiryApplied = 0)
          || isEmpty (JsArray (JsString <$> messageHashes))
          || isEmpty (JsString signature) = true) as ->; [|done].
  destruct Hmissing as [-> | [-> | ->]].
  - done.
  - simpl. by rewrite orb_true_r.
  - simpl. by rewrite orb_true_r.
Qed.

(** The guard as a proposition. *)
Lemma verifySignature_guard_false (expiryApplied : Z) (signature : string)
    (messageHashes : list string) :
  bool_decide (expiryApplied = 0)
  || isEmpty (JsArray (JsString <$> messageHashes))
  || isEmpty (JsString signature) = false
  ↔ expiryApplied ≠ 0 ∧ messageHashes ≠ [] ∧ signature ≠ "".
Proof.
  split.
  - intros Hguard.
    apply orb_false_iff in Hguard as [Hguard Hsig].
    apply orb_false_iff in Hguard as [Hexp Hhashes].
    apply bool_decide_eq_false in Hexp.
    repeat split; [done| |].
    + intros ->. discriminate.
    + intros ->. discriminate.
  - intros (Hexp & Hhashes & Hsig).
    rewrite bool_decide_eq_false_2 by done. simpl.
    rewrite !bool_decide_eq_false_2; [done|done|by destruct messageHashes].
Qed.

(** What [verifySignature] does once its arguments are there, the node key
    has been decoded and the updated hashes have been spread. *)
Lemma verifySignature_run `{Collaborators}
    pubkey snodePubkey expiryApplied signature messageHashes updatedHashes
    unchangedHashes publicKey tr :
  bool_decide (expiryApplied = 0)
  || isEmpty (JsArray (JsString <$> messageHashes))
  || isEmpty (JsString signature) = false →
  fromHexToArray snodePubkey = Returned publicKey →
  let verificationString :=
    verifySignature_verificationString pubkey expiryApplied
      messageHashes updatedHashes unchangedHashes in
  let message := StringUtils_encode verificationString in
  verifySignature pubkey snodePubkey expiryApplied signature
    messageHashes (Some updatedHashes) unchangedHashes tr
  = match fromBase64ToArray signature with
    | Returned sigBytes =>
        match crypto_sign_verify_detached sigBytes message publicKey with
        | Returned isValid =>
            (Returned isValid,
             tr ++ [Log debug ("verifySignature verificationString " +:+ verificationString);
                    Verify sigBytes message publicKey])
        | Thrown _ =>
            (Returned false,
             tr ++ [Log debug ("verifySignature verificationString " +:+ verificationString);
                    Verify sigBytes message publicKey;
                    Log warn "verifySignature failed with: "])
        end
    | Thrown _ =>
        (Returned false,
         tr ++ [Log debug ("verifySignature verificationString " +:+ verificationString);
                Log warn "verifySignature failed with: "])
    end.
Proof.
  intros Hguard Hkey. unfold verifySignature. rewrite Hguard.
  unfold bind, try_catch, lift, emit, ret. simpl. rewrite Hkey. simpl.
  destruct (fromBase64ToArray signature) as [sigBytes|e]; simpl.
  - destruct (crypto_sign_verify_detached _ _ _) as [b|e]; simpl;
      by rewrite <- !app_assoc.
  - by rewrite <- !app_assoc.
Qed.

(** With its arguments there, [verifySignature] throws what the decoder of
    the node key throws, and after it what spreading the updated hashes
    throws; neither sits inside the [try] block, and nothing is logged. *)
Lemma verifySignature_throw_run `{Collaborators}
    pubkey snodePubkey expiryApplied signature messageHashes updatedHashes
    unchangedHashes tr :
  bool_decide (expiryApplied = 0)
  || isEmpty (JsArray (JsString <$> messageHashes))
  || isEmpty (JsString signature) = false →
  match fromHexToArray snodePubkey, updatedHashes with
  | Thrown e, _ =>
      verifySignature pubkey snodePubkey expiryApplied signature
        messageHashes updatedHashes unchangedHashes tr = (Thrown e, tr)
  | Returned _, None =>
      verifySignature pubkey snodePubkey expiryApplied signature
        messageHashes updatedHashes unchangedHashes tr
      = (Thrown (TypeError "updatedHashes is not iterable"), tr)
  | Returned _, Some _ => True
  end.
Proof.
  intros Hguard. unfold verifySignature. rewrite Hguard.
  unfold bind, lift.
  destruct (fromHexToArray snodePubkey) as [publicKey|e]; [|done].
  by destruct updatedHashes.
Qed.

(** What [verifySignature] returns once the node key has been decoded and
    the updated hashes are there. *)
Lemma verifySignature_returns `{Collaborators} pubkey snodePubkey expiryApplied
    signature messageHashes updatedHashes unchangedHashes publicKey tr :
  fromHexToArray snodePubkey = Returned publicKey →
  fst (verifySignature pubkey snodePubkey expiryApplied signature
         messageHashes (Some updatedHashes) unchangedHashes tr)
  = Returned
      (if bool_decide (expiryApplied = 0)
          || isEmpty (JsArray (JsString <$> messageHashes))
          || isEmpty (JsString signature)
       then false
       else
         match fromBase64ToArray signature with
         | Returned sigBytes =>
             match crypto_sign_verify_detached sigBytes
                     (StringUtils_encode
                        (verifySignature_verificationString pubkey expiryApplied
                           messageHashes updatedHashes unchangedHashes))
                     publicKey with
             | Returned isValid => isValid
             | Thrown _ => false
             end
         | Thrown _ => false
         end).
Proof.
  intros Hkey. unfold verifySignature.
  destruct (_ || _ || _); [done|].
  unfold bind, try_catch, lift, emit, ret. simpl. rewrite Hkey. simpl.
  destruct (fromBase64ToArray signature) as [sigBytes|e]; simpl; [|done].
  by destruct (crypto_sign_verify_detached _ _ _) as [b|e].
Qed.




(** C8, as stated, fails: a signature that cannot even be decoded, and a
    public key libsodium rejects, make [verifySignature] return [false], the
    same answer as for a well-formed signature that does not verify. *)
Lemma verifySignature_malformed_counterexample :
  let world := toy_world (Some alice) (Some alice_ed25519) [] (Returned None) in
  fromBase64ToArray (Collaborators := world) "%%" = Thrown (ForeignError "malformed input")
  ∧ fst (verifySignature (H := world) alice "aa01" 1700000060000 "%%"
           ["hashA"] (Some ["hashA"]) None []) = Returned false
  ∧ crypto_sign_verify_detached (Collaborators := world)
      (String.list_byte_of_string "bogus") [] []
    = Thrown (ForeignError "invalid publicKey length")
  ∧ fst (verifySignature (H := world) alice "" 1700000060000 "bogus"
           ["hashA"] (Some ["hashA"]) None []) = Returned false
  ∧ fst (verifySignature (H := world) alice "aa01" 1700000060000 "bogus"
           ["hashA"] (Some ["hashA"]) None []) = Returned false.
Proof. vm_compute. repeat split. Qed.

(** C8, amended. Provided the node key decodes from hex and the updated
    hashes are an array (both are handled before the try block),
    [verifySignature] never throws.  With an argument missing it logs
    "verifySignature missing argument" and returns [false].  Otherwise it
    logs the verification string and then: a signature that cannot be
    decoded from base64 is caught, the warning "verifySignature failed
    with: " is logged and [false] is returned, without libsodium being
    called; an error libsodium throws on the signature or key bytes is
    caught, the same warning is logged and [false] is returned; and when
    libsodium returns, its verdict is returned and no warning is logged.
    So [false] is the answer both for a well-formed signature that does not
    verify and for malformed input, and [true] only when libsodium said so. *)
Theorem verifySignature_never_throws `{Collaborators}
    (pubkey : PubKey) (snodePubkey : string) (expiryApplied : Z)
    (signature : string) (messageHashes : list string)
    (updatedHashes : option (list string))
    (unchangedHashes : option (list (string * string)))
    (publicKey : bytes) (spread : list string) (tr : Trace) :
  fromHexToArray snodePubkey = Returned publicKey →
  updatedHashes = Some spread →
  let verificationString :=
    verifySignature_verificationString pubkey expiryApplied
      messageHashes spread unchangedHashes in
  let message := StringUtils_encode verificationString in
  let logged :=
    Log debug ("verifySignature verificationString " +:+ verificationString) in
  let caught := Log warn "verifySignature failed with: " in
  let run :=
    verifySignature pubkey snodePubkey expiryApplied signature
      messageHashes updatedHashes unchangedHashes tr in
  (∃ isValid, run.1 = Returned isValid)
  ∧ (expiryApplied = 0 ∨ messageHashes = [] ∨ signature = "" →
     run = (Returned false, tr ++ [Log warn "verifySignature missing argument"]))
  ∧ (expiryApplied ≠ 0 ∧ messageHashes ≠ [] ∧ signature ≠ "" →
     (∀ e, fromBase64ToArray signature = Thrown e →
        run = (Returned false, tr ++ [logged; caught]))
     ∧ (∀ sigBytes e,
          fromBase64ToArray signature = Returned sigBytes →
          crypto_sign_verify_detached sigBytes message publicKey = Thrown e →
          run = (Returned false, tr ++ [logged; Verify sigBytes message publicKey; caught]))
     ∧ (∀ sigBytes isValid,
          fromBase64ToArray signature = Returned sigBytes →
          crypto_sign_verify_detached sigBytes message publicKey = Returned isValid →
          run = (Returned isValid, tr ++ [logged; Verify sigBytes message publicKey])))
  ∧ (run.1 = Returned true →
     ∃ sigBytes,
       fromBase64ToArray signature = Returned sigBytes
       ∧ crypto_sign_verify_detached sigBytes message publicKey = Returned true).
Proof.
  intros Hkey -> verificationString message logged caught run.
  subst run logged caught message verificationString.
  split.
  { rewrite (verifySignature_returns _ _ _ _ _ _ _ publicKey tr Hkey).
    by eexists. }
  split.
  { intros Hmissing. by apply verifySignature_guard_run. }
  split.
  { intros Hguard. apply verifySignature_guard_false in Hguard.
    rewrite (verifySignature_run _ _ _ _ _ _ _ publicKey tr Hguard Hkey).
    repeat split.
    - by intros e ->.
    - by intros sigBytes e -> ->.
    - by intros sigBytes isValid -> ->. }
  rewrite (verifySignature_returns _ _ _ _ _ _ _ publicKey tr Hkey).
  destruct (_ || _ || _); [done|].
  destruct (fromBase64ToArray signature) as [sigBytes|e]; [|done].
  destruct (crypto_sign_verify_detached _ _ _) as [[]|e] eqn:Hv; [|done..].
  intros _. by exists sigBytes.
Qed.

Lemma verifySignature_never_throws_witness :
  let world := toy_world (Some alice) (Some alice_ed25519) [] (Returned None) in
  verifySignature (H := world) alice "aa01" 1700000060000 "%%"
    ["hashA"] (Some ["hashA"]) None []
  = (Returned false,
     [] ++ [Log debug ("verifySignature verificationString "
                         +:+ verifySignature_verificationString alice
                               1700000060000 ["hashA"] ["hashA"] None);
            Log warn "verifySignature failed with: "]).
Proof.
  pose proof (verifySignature_never_throws
                (H := toy_world (Some alice) (Some alice_ed25519) [] (Returned None))
                alice "aa01" 1700000060000 "%%" ["hashA"] (Some ["hashA"]) None
                (String.list_byte_of_string "aa01") ["hashA"] []
                eq_refl eq_refl) as (_ & _ & Hchecked & _).
  destruct Hchecked as (Hmalformed & _); [by vm_compute|].
  exact (Hmalformed (ForeignError "malformed input") eq_refl).
Defined.

(** * Handling one node's answer *)

Lemma bind_returned_inv {A B} (m : M A) (k : A → M B) tr b tr' :
  bind m k tr = (Returned b, tr') →
  ∃ a tr1, m tr = (Returned a, tr1) ∧ k a tr1 = (Returned b, tr').
Proof.
  unfold bind. destruct (m tr) as [[a|e] tr1]; [eauto | done].
Qed.

(** One round of the loop: whatever the failure marker and the signature
    say, the round ends by recording the entry's own hashes and expiry. *)
Lemma processExpirationResults_loop_cons_inv `{Collaborators} pubkey targetNode
    nodeKey entry rest messageHashes results tr res tr' :
  processExpirationResults_loop pubkey targetNode ((nodeKey, entry) :: rest)
    messageHashes results tr = (Returned res, tr') →
  ∃ tr1,
    processExpirationResults_loop pubkey targetNode rest messageHashes
      (<[nodeKey := {| hashes := updated entry; result_expiry := entry_expiry entry |}]>
         results) tr1
    = (Returned res, tr').
Proof.
  simpl. intros Hrun.
  apply bind_returned_inv in Hrun as (results1 & tr1 & Hphase & Hrun).
  apply bind_returned_inv in Hrun as (isValid & tr2 & _ & Hrun).
  apply bind_returned_inv in Hrun as (? & tr3 & _ & Hrun).
  exists tr3.
  destruct (isEmpty (failed entry)); simpl in Hphase.
  - injection Hphase as <- _. done.
  - unfold bind, emit, ret in Hphase. injection Hphase as <- _.
    by rewrite insert_insert_eq in Hrun.
Qed.

Lemma processExpirationResults_loop_lookup `{Collaborators} pubkey targetNode
    entries messageHashes results tr res tr' (nodeKey : string) :
  processExpirationResults_loop pubkey targetNode entries messageHashes results tr
  = (Returned res, tr') →
  NoDup entries.*1 →
  res !! nodeKey
  = match list_to_map (M := gmap string SwarmEntry) entries !! nodeKey with
    | Some entry =>
        Some {| hashes := updated entry; result_expiry := entry_expiry entry |}
    | None => results !! nodeKey
    end.
Proof.
  revert results tr.
  induction entries as [|[k e] rest IH]; intros results tr Hrun Hnodup.
  - simpl in *. injection Hrun as <- _. by rewrite lookup_empty.
  - apply processExpirationResults_loop_cons_inv in Hrun as [tr1 Hrun].
    apply NoDup_cons in Hnodup as [Hk Hnodup]. simpl in Hk.
    rewrite (IH _ _ Hrun Hnodup). simpl.
    destruct (decide (k = nodeKey)) as [->|Hne].
    + rewrite lookup_insert_eq.
      rewrite (not_elem_of_list_to_map_1 (M := gmap string)); [|done].
      by rewrite lookup_insert_eq.
    + by rewrite !lookup_insert_ne.
Qed.

(** C5 (what the code does). For an answer whose keys are distinct, the
    result recorded for a node is always the entry's own updated hashes and
    expiry, also when the entry's [failed] field is non-empty: the empty
    result stored for a failed entry is overwritten in the same round. *)
Theorem failed_entry_records_claimed_result `{Collaborators}
    (pubkey : PubKey) (targetNode : Snode) (swarm : Swarm)
    (messageHashes : list string) (nodeKey : string) (entry : SwarmEntry)
    (tr : Trace) (results : gmap string ExpirationResult) :
  NoDup swarm.*1 →
  (nodeKey, entry) ∈ swarm →
  isEmpty (failed entry) = false →
  fst (processExpirationResults pubkey targetNode (Some swarm) messageHashes tr)
  = Returned results →
  results !! nodeKey
  = Some {| hashes := updated entry; result_expiry := entry_expiry entry |}.
Proof.
  intros Hnodup Hin _ Hrun.
  destruct (processExpirationResults _ _ _ _ _) as [o tr'] eqn:Hrun'.
  simpl in Hrun. subst o.
  unfold processExpirationResults in Hrun'.
  destruct swarm as [|first rest]; [by apply elem_of_nil in Hin|].
  rewrite (processExpirationResults_loop_lookup _ _ _ _ _ _ _ _ nodeKey Hrun' Hnodup).
  by rewrite (elem_of_list_to_map_1 (M := gmap string) _ _ _ Hnodup Hin).
Qed.

Lemma failed_entry_records_claimed_result_witness :
  let world := toy_world (Some alice) (Some alice_ed25519) [node1] (Returned None) in
  isEmpty (failed failed_entry) = false
  ∧ ∃ results,
      fst (processExpirationResults (H := world) alice node1
             (Some sample_answer) ["hashA"] []) = Returned results
      ∧ results !! "aa01"
        = Some {| hashes := Some ["hashA"]; result_expiry := 1700000060000 |}.
Proof.
  split; [reflexivity|].
  eexists. split; [vm_compute; reflexivity|].
  apply (failed_entry_records_claimed_result
           (H := toy_world (Some alice) (Some alice_ed25519) [node1] (Returned None))
           alice node1 sample_answer ["hashA"] "aa01" failed_entry []).
  - apply (bool_decide_unpack _). vm_compute. reflexivity.
  - constructor.
  - reflexivity.
  - vm_compute. reflexivity.
Defined.













(** * One attempt on one node *)

Lemma emits_processExpirationResults_loop `{Collaborators} pubkey targetNode
    (entries : Swarm) messageHashes results :
  emits is_local
    (processExpirationResults_loop pubkey targetNode entries messageHashes results).
Proof.
  revert results. induction entries as [|[k e] rest IH]; intros results; simpl.
  - apply emits_ret.
  - apply emits_bind; [emits|]. intros results1.
    apply emits_bind.
    { eapply emits_weaken; [|apply emits_verifySignature].
      intros ev. unfold is_check. by intros [? _]%andb_prop_elim. }
    intros isValid. apply emits_bind; [emits|]. intros _. apply IH.
Qed.

Lemma emits_processExpirationResults `{Collaborators} pubkey targetNode swarm messageHashes :
  emits is_local (processExpirationResults pubkey targetNode swarm messageHashes).
Proof.
  unfold processExpirationResults.
  destruct swarm as [[|first rest]|]; try apply emits_throw.
  apply emits_processExpirationResults_loop.
Qed.

Lemma try_catch_emit_run {A} (P : Event → Prop) (r : Event) (k : M A)
    (h : JsError → M A) (tr : Trace) :
  emits P k → (∀ e, emits P (h e)) →
  ∃ o ev, try_catch (emit r;; k) h tr = (o, tr ++ r :: ev) ∧ Forall P ev.
Proof.
  intros Hk Hh. unfold try_catch, bind, emit.
  destruct (emits_run _ _ (tr ++ [r]) Hk) as (o & ev & -> & Hev & _).
  destruct o as [a|e].
  - exists (Returned a), ev. by rewrite <- app_assoc.
  - destruct (emits_run _ _ ((tr ++ [r]) ++ ev) (Hh e)) as (o' & ev' & -> & Hev' & _).
    exists o', (ev ++ ev'). rewrite <- !app_assoc. split; [done|].
    by apply Forall_app.
Qed.

(** An attempt makes exactly one RPC call, to its node and with the
    parameters it was given; the rest of what it does stays local. *)
Lemma expireOnNodes_run `{Collaborators} targetNode params tr :
  ∃ o ev,
    expireOnNodes targetNode params tr
    = (o, tr ++ Rpc targetNode (rpcParams params) (key (pubkey params)) :: ev)
    ∧ Forall is_local ev.
Proof.
  unfold expireOnNodes. cbv zeta. apply try_catch_emit_run.
  - apply emits_bind; [emits|]. intros [result|]; [|emits].
    destruct (_ || _); [emits|].
    apply emits_try_catch; [|emits].
    apply emits_bind; [emits|]. intros swarm.
    apply emits_bind; [apply emits_processExpirationResults|]. emits.
  - emits.
Qed.

Lemma expireMessageOnSnode_promise_run `{Collaborators} params usedNode tr :
  ∃ promise ev,
    expireMessageOnSnode_promise params usedNode tr
    = (Returned promise,
       tr ++ Rpc usedNode (rpcParams params) (key (pubkey params)) :: ev)
    ∧ Forall is_local ev.
Proof.
  unfold expireMessageOnSnode_promise, settle, bind.
  destruct (expireOnNodes_run usedNode params tr) as (o & ev & -> & Hev).
  destruct o as [b|e]; unfold ret; eauto.
Qed.

(** The fan-out: one RPC call per node, in order, each with the same
    parameters; the clock is not read and nothing is signed on the way. *)
Lemma promises_run `{Collaborators} params (usedNodes : list Snode) tr :
  ∃ promises ev,
    mapM (expireMessageOnSnode_promise params) usedNodes tr
    = (Returned promises, tr ++ ev)
    ∧ rpc_calls ev = (λ usedNode, (usedNode, rpcParams params)) <$> usedNodes
    ∧ clock_reads ev = 0%nat
    ∧ sign_calls ev = 0%nat.
Proof.
  revert tr. induction usedNodes as [|n rest IH]; intros tr; simpl.
  - exists [], []. unfold ret. by rewrite app_nil_r.
  - unfold bind at 1.
    destruct (expireMessageOnSnode_promise_run params n tr) as (p & ev & -> & Hev).
    unfold bind at 1.
    destruct (IH (tr ++ Rpc n (rpcParams params) (key (pubkey params)) :: ev))
      as (ps & ev' & -> & Hrpc & Hclock & Hsign).
    exists (p :: ps), (Rpc n (rpcParams params) (key (pubkey params)) :: ev ++ ev').
    destruct (local_events_counts ev Hev) as (Hrpc0 & Hclock0 & Hsign0).
    unfold ret, clock_reads, sign_calls in *. split.
    + by rewrite <- app_assoc.
    + simpl. rewrite rpc_calls_app, !count_app, Hrpc0, Hrpc, Hclock0, Hsign0.
      simpl. by rewrite Hclock, Hsign.
Qed.

(** * The coordinator *)

(** The run of [expireMessageOnSnode] once the request is valid, both keys
    are there and the signature has been made. *)
Lemma expireMessageOnSnode_signed_run `{Collaborators}
    (props : ExpireMessageOnSnodeProps) (tr : Trace)
    (ourPubKey : PubKey) (ourEd25519Key : HexKeyPair) (secretKey sig : bytes) :
  truthy (props_extend props) && truthy (props_shorten props) = false →
  getOurPubKeyFromCache = Some ourPubKey →
  getUserED25519KeyPair = Some ourEd25519Key →
  fromHexToArray (privKey ourEd25519Key) = Returned secretKey →
  crypto_sign_detached (expireMessageOnSnode_message props ourPubKey tr) secretKey
  = Returned sig →
  let params :=
    expireMessageOnSnode_params ourPubKey ourEd25519Key (messageHash props)
      (expireMessageOnSnode_expiry props ourPubKey tr)
      (props_extend props) (props_shorten props)
      {| sig_signature := fromUInt8ArrayToBase64 sig;
         sig_pubkey_ed25519 := pubKey ourEd25519Key |} in
  let usedNodes := take DEFAULT_CONNECTIONS (getSwarmFor (key ourPubKey)) in
  ∃ o post,
    expireMessageOnSnode props tr
    = (o, tr ++ expireMessageOnSnode_prelude props ourPubKey secretKey tr ++ post)
    ∧ rpc_calls post = (λ usedNode, (usedNode, rpcParams params)) <$> usedNodes
    ∧ clock_reads post = 0%nat
    ∧ sign_calls post = 0%nat
    ∧ (usedNodes = [] →
       o = Thrown (EmptySwarmError (key ourPubKey) "Ran out of swarm nodes to query")).
Proof.
  intros Hflags Hpub Hed Hkey Hsign params usedNodes.
  unfold expireMessageOnSnode. rewrite Hflags, Hpub, Hed.
  unfold bind at 1, emit.
  unfold bind at 1, readNetworkTime.
  unfold bind at 1, generateSignature.
  unfold bind at 1, lift. rewrite Hkey.
  unfold bind at 1. simpl window_log. unfold emit.
  unfold try_catch, bind at 1.
  unfold bind at 1.
  unfold expireMessageOnSnode_message, expireMessageOnSnode_expiry in Hsign.
  rewrite Hsign. unfold ret at 1.
  fold params. fold usedNodes.
  assert (∀ post,
    ((((tr ++ [SwarmLookup (key ourPubKey)])
         ++ [Clock (getNowWithNetworkOffset (tr ++ [SwarmLookup (key ourPubKey)]))])
        ++ [Log debug
              ("generateSignature verificationString "
                 +:+ generateSignature_verificationString
                       (shortenOrExtend (props_extend props) (props_shorten props))
                       (getNowWithNetworkOffset (tr ++ [SwarmLookup (key ourPubKey)])
                          + expireTimer props)
                       [messageHash props])])
       ++ [Sign
             (StringUtils_encode
                (generateSignature_verificationString
                   (shortenOrExtend (props_extend props) (props_shorten props))
                   (getNowWithNetworkOffset (tr ++ [SwarmLookup (key ourPubKey)])
                      + expireTimer props)
                   [messageHash props]))
             secretKey]) ++ post
    = tr ++ expireMessageOnSnode_prelude props ourPubKey secretKey tr ++ post)
    as Hpre.
  { intros post. by rewrite <- !app_assoc. }
  case_bool_decide as Hlen.
  - exists (Thrown (EmptySwarmError (key ourPubKey) "Ran out of swarm nodes to query")), [].
    unfold throw. rewrite <- (Hpre []), app_nil_r.
    apply nil_length_inv in Hlen. by rewrite Hlen.
  - unfold bind at 1.
    subst params. unfold expireMessageOnSnode_expiry.
    match goal with
    | |- context [mapM (expireMessageOnSnode_promise ?params) _ ?tr0] =>
        destruct (promises_run params usedNodes tr0)
          as (promises & ev & Hrun & Hrpc & Hclock & Hsigns)
    end.
    rewrite Hrun.
    unfold bind, lift.
    destruct (firstTrue promises) as [firstSuccessSnode|e]; simpl.
    + exists (Returned tt), ev. unfold ret. rewrite Hpre.
      repeat split; try done. intros Hnil. by rewrite Hnil in Hlen.
    + eexists (Thrown e), (ev ++ [_]). unfold emit, throw.
      rewrite <- app_assoc, Hpre. split; [done|].
      unfold clock_reads, sign_calls in *.
      rewrite rpc_calls_app, !count_app, Hrpc, Hclock, Hsigns. simpl.
      rewrite app_nil_r. repeat split; try done.
      intros Hnil. by rewrite Hnil in Hlen.
Qed.

Lemma expireMessageOnSnode_both_flags `{Collaborators} props tr :
  truthy (props_extend props) && truthy (props_shorten props) = true →
  expireMessageOnSnode props tr
  = (Returned tt,
     tr ++ [Log error
              "[expireMessageOnSnode] We cannot extend and shorten a message at the same time"]).
Proof. intros Hflags. unfold expireMessageOnSnode. by rewrite Hflags. Qed.

Lemma expireMessageOnSnode_missing_key `{Collaborators} props tr :
  truthy (props_extend props) && truthy (props_shorten props) = false →
  getOurPubKeyFromCache = None ∨ getUserED25519KeyPair = None →
  expireMessageOnSnode props tr
  = if window_log_has_eror
    then (Returned tt, tr ++ [Log eror "[expireMessageOnSnode] No pubkey found"])
    else (Thrown (TypeError "window.log.eror is not a function"), tr).
Proof.
  intros Hflags Hkeys. unfold expireMessageOnSnode. rewrite Hflags.
  destruct Hkeys as [Hk|Hk]; rewrite Hk; try destruct getOurPubKeyFromCache;
    unfold bind, window_log; by destruct window_log_has_eror.
Qed.

Lemma expireMessageOnSnode_undecodable_key `{Collaborators} props tr
    ourPubKey ourEd25519Key e :
  truthy (props_extend props) && truthy (props_shorten props) = false →
  getOurPubKeyFromCache = Some ourPubKey →
  getUserED25519KeyPair = Some ourEd25519Key →
  fromHexToArray (privKey ourEd25519Key) = Thrown e →
  expireMessageOnSnode props tr
  = (Thrown e,
     tr ++ [SwarmLookup (key ourPubKey);
            Clock (getNowWithNetworkOffset (tr ++ [SwarmLookup (key ourPubKey)]))]).
Proof.
  intros Hflags Hpub Hed Hkey.
  unfold expireMessageOnSnode. rewrite Hflags, Hpub, Hed.
  unfold bind at 1, emit.
  unfold bind at 1, readNetworkTime.
  unfold bind at 1, generateSignature.
  unfold bind at 1, lift. rewrite Hkey. by rewrite <- app_assoc.
Qed.

(** When libsodium refuses to sign, the coordinator logs and returns. *)
Lemma expireMessageOnSnode_signing_failed `{Collaborators} props tr
    ourPubKey ourEd25519Key secretKey e :
  truthy (props_extend props) && truthy (props_shorten props) = false →
  getOurPubKeyFromCache = Some ourPubKey →
  getUserED25519KeyPair = Some ourEd25519Key →
  fromHexToArray (privKey ourEd25519Key) = Returned secretKey →
  crypto_sign_detached (expireMessageOnSnode_message props ourPubKey tr) secretKey
  = Thrown e →
  expireMessageOnSnode props tr
  = (Returned tt,
     tr ++ expireMessageOnSnode_prelude props ourPubKey secretKey tr
        ++ [Log warn "generateSignature failed with: ";
            Log error "[expireMessageOnSnode] Signing message expiry on swarm failed"]).
Proof.
  intros Hflags Hpub Hed Hkey Hsign.
  unfold expireMessageOnSnode. rewrite Hflags, Hpub, Hed.
  unfold bind at 1, emit.
  unfold bind at 1, readNetworkTime.
  unfold bind at 1, generateSignature.
  unfold bind at 1, lift. rewrite Hkey.
  unfold bind at 1. simpl window_log. unfold emit.
  unfold try_catch, bind at 1.
  unfold bind at 1.
  unfold expireMessageOnSnode_message, expireMessageOnSnode_expiry in Hsign.
  rewrite Hsign. unfold bind, ret. simpl window_log. unfold emit.
  by rewrite <- !app_assoc.
Qed.

Lemma prelude_counts `{Collaborators} props ourPubKey secretKey tr :
  rpc_calls (expireMessageOnSnode_prelude props ourPubKey secretKey tr) = []
  ∧ clock_reads (expireMessageOnSnode_prelude props ourPubKey secretKey tr) = 1%nat
  ∧ sign_calls (expireMessageOnSnode_prelude props ourPubKey secretKey tr) = 1%nat.
Proof. unfold expireMessageOnSnode_prelude, clock_reads, sign_calls. by simpl. Qed.

(** C6, as stated, fails: with both flags set the coordinator does not
    raise anything; it logs an error and returns. *)
Lemma both_flags_counterexample :
  let world := toy_world (Some alice) (Some alice_ed25519) [node1] (Returned None) in
  expireMessageOnSnode (H := world) (sample_props (Some true) (Some true)) []
  = (Returned tt,
     [Log error
        "[expireMessageOnSnode] We cannot extend and shorten a message at the same time"]).
Proof. reflexivity. Qed.

(** C6, amended. When both extend and shorten are asked for, the
    coordinator logs an error and returns normally, before any transport
    call: the trace gains that one log line and no RPC. *)
Theorem both_flags_rejected_before_transport `{Collaborators}
    (props : ExpireMessageOnSnodeProps) (tr : Trace) :
  truthy (props_extend props) = true →
  truthy (props_shorten props) = true →
  ∃ ev,
    expireMessageOnSnode props tr = (Returned tt, tr ++ ev)
    ∧ ev = [Log error
              "[expireMessageOnSnode] We cannot extend and shorten a message at the same time"]
    ∧ rpc_calls ev = [].
Proof.
  intros He Hs. eexists. split; [|done].
  apply expireMessageOnSnode_both_flags. by rewrite He, Hs.
Qed.

Lemma both_flags_rejected_before_transport_witness :
  let world :=
    toy_world (Some alice) (Some alice_ed25519) [node1] (Returned (Some sample_answer)) in
  ∃ ev,
    expireMessageOnSnode (H := world) (sample_props (Some true) (Some true)) []
    = (Returned tt, [] ++ ev)
    ∧ ev = [Log error
              "[expireMessageOnSnode] We cannot extend and shorten a message at the same time"]
    ∧ rpc_calls ev = [].
Proof.
  apply (both_flags_rejected_before_transport
           (H := toy_world (Some alice) (Some alice_ed25519) [node1]
                   (Returned (Some sample_answer)))
           (sample_props (Some true) (Some true)) []);
    reflexivity.
Defined.

(** C7, as stated, fails: with an empty swarm and a secret key libsodium
    refuses, the coordinator returns normally and raises nothing. *)
Lemma empty_swarm_counterexample :
  let world :=
    toy_world (Some alice) (Some {| pubKey := "abcd"; privKey := "" |}) []
      (Returned None) in
  getSwarmFor (Collaborators := world) (key alice) = []
  ∧ fst (expireMessageOnSnode (H := world) (sample_props None None) [])
    = Returned tt.
Proof. split; reflexivity. Qed.

(** C7, amended. When the swarm of the owner is empty and the request has
    been signed, the coordinator throws [EmptySwarmError] and has made no
    transport call. *)
Theorem empty_swarm_raises_EmptySwarmError `{Collaborators}
    (props : ExpireMessageOnSnodeProps) (tr : Trace)
    (ourPubKey : PubKey) (ourEd25519Key : HexKeyPair) (secretKey sig : bytes) :
  truthy (props_extend props) && truthy (props_shorten props) = false →
  getOurPubKeyFromCache = Some ourPubKey →
  getUserED25519KeyPair = Some ourEd25519Key →
  getSwarmFor (key ourPubKey) = [] →
  fromHexToArray (privKey ourEd25519Key) = Returned secretKey →
  crypto_sign_detached (expireMessageOnSnode_message props ourPubKey tr) secretKey
  = Returned sig →
  ∃ ev,
    expireMessageOnSnode props tr
    = (Thrown (EmptySwarmError (key ourPubKey) "Ran out of swarm nodes to query"),
       tr ++ ev)
    ∧ rpc_calls ev = [].
Proof.
  intros Hflags Hpub Hed Hswarm Hkey Hsign.
  destruct (expireMessageOnSnode_signed_run props tr ourPubKey ourEd25519Key
              secretKey sig Hflags Hpub Hed Hkey Hsign)
    as (o & post & Hrun & Hrpc & _ & _ & Hthrown).
  rewrite Hswarm, take_nil in Hrpc, Hthrown.
  exists (expireMessageOnSnode_prelude props ourPubKey secretKey tr ++ post).
  rewrite Hrun, Hthrown by done. split; [done|].
  by rewrite rpc_calls_app, Hrpc.
Qed.

Lemma empty_swarm_raises_EmptySwarmError_witness :
  let world := toy_world (Some alice) (Some alice_ed25519) [] (Returned None) in
  ∃ ev,
    expireMessageOnSnode (H := world) (sample_props (Some true) None) []
    = (Thrown (EmptySwarmError "05a11ce" "Ran out of swarm nodes to query"), [] ++ ev)
    ∧ rpc_calls ev = [].
Proof.
  apply (empty_swarm_raises_EmptySwarmError
           (H := toy_world (Some alice) (Some alice_ed25519) [] (Returned None))
           (sample_props (Some true) None) [] alice alice_ed25519
           (String.list_byte_of_string "5ec7e7")
           (String.list_byte_of_string "5ec7e7expireextend1700000060001hashA"));
    reflexivity.
Defined.

(** C10 (what the code does). When the owner key or the Ed25519 key pair is
    missing, the coordinator calls [window.log.eror]; on a logger without
    such a member that call is a [TypeError], so the coordinator throws
    instead of returning, before anything else has happened. *)
Theorem missing_key_raises_TypeError `{Collaborators}
    (props : ExpireMessageOnSnodeProps) (tr : Trace) :
  window_log_has_eror = false →
  truthy (props_extend props) && truthy (props_shorten props) = false →
  getOurPubKeyFromCache = None ∨ getUserED25519KeyPair = None →
  expireMessageOnSnode props tr
  = (Thrown (TypeError "window.log.eror is not a function"), tr).
Proof.
  intros Hlog Hflags Hkeys.
  rewrite (expireMessageOnSnode_missing_key props tr Hflags Hkeys).
  by rewrite Hlog.
Qed.

Lemma missing_key_raises_TypeError_witness :
  let world := toy_world (Some alice) None [node1] (Returned None) in
  expireMessageOnSnode (H := world) (sample_props None None) []
  = (Thrown (TypeError "window.log.eror is not a function"), []).
Proof.
  apply (missing_key_raises_TypeError
           (H := toy_world (Some alice) None [node1] (Returned None))
           (sample_props None None) []).
  - reflexivity.
  - reflexivity.
  - right. reflexivity.
Defined.

(** C9. In every run of the coordinator the network clock is read at most
    once and libsodium is asked to sign at most once; a run that passes the
    validation and finds both keys reads the clock exactly once, and signs
    exactly once when the secret key decodes.  A run that contacts any node
    has first looked up the swarm, read the clock and signed; after that it
    neither reads the clock nor signs, and it sends one and the same
    parameter object, carrying the expiry (time read plus timer) and the
    signature just made, to each of the first [DEFAULT_CONNECTIONS] nodes
    of the swarm. *)
Theorem expiry_and_signature_made_once `{Collaborators}
    (props : ExpireMessageOnSnodeProps) (tr : Trace) :
  ∃ ev,
    snd (expireMessageOnSnode props tr) = tr ++ ev
    ∧ (clock_reads ev ≤ 1)%nat
    ∧ (sign_calls ev ≤ 1)%nat
    ∧ (truthy (props_extend props) && truthy (props_shorten props) = false →
       is_Some getOurPubKeyFromCache →
       ∀ ourEd25519Key, getUserED25519KeyPair = Some ourEd25519Key →
         clock_reads ev = 1%nat
         ∧ (is_Returned (fromHexToArray (privKey ourEd25519Key)) →
            sign_calls ev = 1%nat))
    ∧ (rpc_calls ev = []
       ∨ ∃ ourPubKey ourEd25519Key secretKey sig post params,
           getOurPubKeyFromCache = Some ourPubKey
           ∧ getUserED25519KeyPair = Some ourEd25519Key
           ∧ ev = expireMessageOnSnode_prelude props ourPubKey secretKey tr ++ post
           ∧ crypto_sign_detached
               (expireMessageOnSnode_message props ourPubKey tr) secretKey
             = Returned sig
           ∧ rpc_calls (expireMessageOnSnode_prelude props ourPubKey secretKey tr) = []
           ∧ clock_reads post = 0%nat
           ∧ sign_calls post = 0%nat
           ∧ rpc_calls post
             = (λ usedNode, (usedNode, params))
                 <$> take DEFAULT_CONNECTIONS (getSwarmFor (key ourPubKey))
           ∧ rpc_expiry params
             = getNowWithNetworkOffset (tr ++ [SwarmLookup (key ourPubKey)])
               + expireTimer props
           ∧ rpc_signature params = fromUInt8ArrayToBase64 sig
           ∧ rpc_messages params = [messageHash props]).
Proof.
  destruct (truthy (props_extend props) && truthy (props_shorten props)) eqn:Hflags.
  { rewrite (expireMessageOnSnode_both_flags props tr Hflags).
    eexists. split; [done|]. unfold clock_reads, sign_calls. simpl.
    split; [lia|]. split; [lia|]. split; [done | by left]. }
  destruct getOurPubKeyFromCache as [ourPubKey|] eqn:Hpub; cycle 1.
  { rewrite (expireMessageOnSnode_missing_key props tr Hflags (or_introl Hpub)).
    destruct window_log_has_eror; simpl.
    - eexists. split; [done|]. unfold clock_reads, sign_calls. simpl.
      split; [lia|]. split; [lia|]. split; [by intros _ [? [=]] | by left].
    - exists []. rewrite app_nil_r. split; [done|].
      unfold clock_reads, sign_calls. simpl.
      split; [lia|]. split; [lia|]. split; [by intros _ [? [=]] | by left]. }
  destruct getUserED25519KeyPair as [ourEd25519Key|] eqn:Hed; cycle 1.
  { rewrite (expireMessageOnSnode_missing_key props tr Hflags (or_intror Hed)).
    destruct window_log_has_eror; simpl.
    - eexists. split; [done|]. unfold clock_reads, sign_calls. simpl.
      split; [lia|]. split; [lia|]. split; [by intros _ _ ? [=] | by left].
    - exists []. rewrite app_nil_r. split; [done|].
      unfold clock_reads, sign_calls. simpl.
      split; [lia|]. split; [lia|]. split; [by intros _ _ ? [=] | by left]. }
  destruct (fromHexToArray (privKey ourEd25519Key)) as [secretKey|e] eqn:Hkey; cycle 1.
  { rewrite (expireMessageOnSnode_undecodable_key props tr _ _ e Hflags Hpub Hed Hkey).
    eexists. split; [done|]. unfold clock_reads, sign_calls. simpl.
    split; [lia|]. split; [lia|]. split; [|by left].
    intros _ _ kp [= <-]. split; [done|]. rewrite Hkey. by intros []. }
  destruct (prelude_counts props ourPubKey secretKey tr) as (Hrpc0 & Hclock0 & Hsign0).
  destruct (crypto_sign_detached (expireMessageOnSnode_message props ourPubKey tr) secretKey)
    as [sig|e] eqn:Hsign; cycle 1.
  { rewrite (expireMessageOnSnode_signing_failed props tr _ _ _ e
               Hflags Hpub Hed Hkey Hsign).
    eexists. split; [done|]. unfold clock_reads, sign_calls in *.
    rewrite rpc_calls_app, !count_app, Hrpc0, Hclock0, Hsign0. simpl.
    split; [lia|]. split; [lia|]. split; [|by left].
    by intros _ _ kp _. }
  destruct (expireMessageOnSnode_signed_run props tr ourPubKey ourEd25519Key
              secretKey sig Hflags Hpub Hed Hkey Hsign)
    as (o & post & Hrun & Hrpc & Hclock & Hsigns & _).
  rewrite Hrun. eexists. split; [done|].
  unfold clock_reads, sign_calls in *.
  rewrite !count_app, Hclock0, Hsign0, Hclock, Hsigns.
  split; [lia|]. split; [lia|]. split; [by intros _ _ kp _|]. right.
  exists ourPubKey, ourEd25519Key, secretKey, sig, post,
    (rpcParams
       (expireMessageOnSnode_params ourPubKey ourEd25519Key (messageHash props)
          (expireMessageOnSnode_expiry props ourPubKey tr)
          (props_extend props) (props_shorten props)
          {| sig_signature := fromUInt8ArrayToBase64 sig;
             sig_pubkey_ed25519 := pubKey ourEd25519Key |})).
  repeat split; done.
Qed.

Lemma expiry_and_signature_made_once_witness :
  let world :=
    toy_world (Some alice) (Some alice_ed25519) [node1; node2; node3]
      (Returned (Some sample_answer)) in
  ∃ ev,
    snd (expireMessageOnSnode (H := world) (sample_props None (Some true)) []) = [] ++ ev
    ∧ clock_reads ev = 1%nat
    ∧ sign_calls ev = 1%nat.
Proof.
  destruct (expiry_and_signature_made_once
              (H := toy_world (Some alice) (Some alice_ed25519) [node1; node2; node3]
                      (Returned (Some sample_answer)))
              (sample_props None (Some true)) [])
    as (ev & Hrun & _ & _ & Honce & _).
  exists ev. split; [exact Hrun|].
  destruct (Honce eq_refl (ex_intro _ alice eq_refl) alice_ed25519 eq_refl)
    as [Hclock Hsign].
  split; [exact Hclock|]. apply Hsign. exact I.
Defined.

(** A run of the toy world with three nodes in the swarm and a fan-out of
    two: both nodes contacted receive the same expiry and signature. *)
Example expiry_and_signature_shared :
  let world :=
    toy_world (Some alice) (Some alice_ed25519) [node1; node2; node3]
      (Returned (Some sample_answer)) in
  let params :=
    {| rpc_pubkey := "05a11ce"; rpc_pubkey_ed25519 := "ABCD";
       rpc_messages := ["hashA"]; rpc_expiry := 1700000060001;
       rpc_extend := None; rpc_shorten := Some true;
       rpc_signature := "5ec7e7expireshorten1700000060001hashA" |} in
  rpc_calls (snd (expireMessageOnSnode (H := world) (sample_props None (Some true)) []))
  = [(node1, params); (node2, params)]
  ∧ clock_reads (snd (expireMessageOnSnode (H := world) (sample_props None (Some true)) []))
    = 1%nat
  ∧ sign_calls (snd (expireMessageOnSnode (H := world) (sample_props None (Some true)) []))
    = 1%nat.
Proof. vm_compute. repeat split. Qed.

(** * Further properties of [generateSignature] and [verifySignature] *)

(** X1. Once the secret key has been decoded, [generateSignature] never
    throws: it returns the base64 of what libsodium returns, together with
    the key pair's own public key, and [null], after one warning, when
    libsodium throws; either way libsodium is asked exactly once. *)
Theorem generateSignature_swallows_signing_errors `{Collaborators}
    (keypair : HexKeyPair) (secretKey : bytes) (token : string)
    (timestamp : Z) (messageHashes : list string) (tr : Trace) :
  fromHexToArray (privKey keypair) = Returned secretKey →
  ∃ ev,
    generateSignature (Some keypair) token timestamp messageHashes tr
    = (Returned
         match crypto_sign_detached
                 (StringUtils_encode
                    (generateSignature_verificationString token timestamp messageHashes))
                 secretKey with
         | Returned sig =>
             Some {| sig_signature := fromUInt8ArrayToBase64 sig;
                     sig_pubkey_ed25519 := pubKey keypair |}
         | Thrown _ => None
         end,
       tr ++ ev)
    ∧ sign_calls ev = 1%nat
    ∧ rpc_calls ev = []
    ∧ signing_warnings ev
      = match crypto_sign_detached
                (StringUtils_encode
                   (generateSignature_verificationString token timestamp messageHashes))
                secretKey with
        | Returned _ => 0%nat
        | Thrown _ => 1%nat
        end.
Proof.
  intros Hkey.
  unfold generateSignature, bind, try_catch, lift, emit, ret. simpl.
  rewrite Hkey.
  destruct (crypto_sign_detached _ _) as [sg|e]; simpl.
  - eexists [_; _]. by rewrite <- !app_assoc.
  - eexists [_; _; _]. by rewrite <- !app_assoc.
Qed.

Lemma generateSignature_swallows_signing_errors_witness :
  let world :=
    toy_world (Some alice) (Some {| pubKey := "abcd"; privKey := "" |}) [] (Returned None) in
  ∃ ev,
    generateSignature (H := world) (Some {| pubKey := "abcd"; privKey := "" |})
      "extend" 1700000060000 ["hashA"] []
    = (Returned None, [] ++ ev)
    ∧ sign_calls ev = 1%nat
    ∧ rpc_calls ev = []
    ∧ signing_warnings ev = 1%nat.
Proof.
  apply (generateSignature_swallows_signing_errors
           (H := toy_world (Some alice) (Some {| pubKey := "abcd"; privKey := "" |}) []
                   (Returned None))
           {| pubKey := "abcd"; privKey := "" |} [] "extend" 1700000060000 ["hashA"] []).
  reflexivity.
Defined.

(** X2. The only error that leaves [generateSignature] is the decoder's:
    given a key pair, it throws exactly when the secret key cannot be
    decoded, and then that very error, before anything is logged or signed
    (the decoding sits outside its try block). *)
Theorem generateSignature_throws_only_decoder_errors `{Collaborators}
    (keypair : HexKeyPair) (e : JsError) (token : string)
    (timestamp : Z) (messageHashes : list string) (tr : Trace) :
  (fst (generateSignature (Some keypair) token timestamp messageHashes tr) = Thrown e
   ↔ fromHexToArray (privKey keypair) = Thrown e)
  ∧ (fromHexToArray (privKey keypair) = Thrown e →
     generateSignature (Some keypair) token timestamp messageHashes tr = (Thrown e, tr)).
Proof.
  unfold generateSignature, bind, try_catch, lift, emit, ret. simpl.
  destruct (fromHexToArray (privKey keypair)) as [secretKey|e']; simpl.
  - destruct (crypto_sign_detached _ _); simpl; by split.
  - split; [|by intros [= ->]]. split; by intros [= ->].
Qed.

Lemma generateSignature_throws_only_decoder_errors_witness :
  let world := toy_world (Some alice) (Some alice_ed25519) [] (Returned None) in
  generateSignature (H := world) (Some {| pubKey := "abcd"; privKey := "zz" |})
    "" 1700000060000 ["hashA"] []
  = (Thrown (ForeignError "malformed input"), []).
Proof.
  eapply (proj2 (generateSignature_throws_only_decoder_errors
                   (H := toy_world (Some alice) (Some alice_ed25519) [] (Returned None))
                   {| pubKey := "abcd"; privKey := "zz" |}
                   (ForeignError "malformed input") "" 1700000060000 ["hashA"] [])).
  reflexivity.
Defined.

(** X3. With a zero expiry, no requested hashes or an empty signature,
    [verifySignature] returns [false] after one warning; it decodes
    nothing, spreads nothing and does not call libsodium, whatever the
    decoders would do and whether or not the updated hashes are there. *)
Theorem verifySignature_missing_argument `{Collaborators}
    (pubkey : PubKey) (snodePubkey : string) (expiryApplied : Z)
    (signature : string) (messageHashes : list string)
    (updatedHashes : option (list string))
    (unchangedHashes : option (list (string * string))) (tr : Trace) :
  expiryApplied = 0 ∨ messageHashes = [] ∨ signature = "" →
  verifySignature pubkey snodePubkey expiryApplied signature
    messageHashes updatedHashes unchangedHashes tr
  = (Returned false, tr ++ [Log warn "verifySignature missing argument"]).
Proof.
  intros Hmissing. unfold verifySignature.
  destruct Hmissing as [-> | [-> | ->]]; simpl.
  - done.
  - by rewrite orb_true_r.
  - by rewrite !orb_true_r.
Qed.

Lemma verifySignature_missing_argument_witness :
  let world := toy_world (Some alice) (Some alice_ed25519) [] (Returned None) in
  verifySignature (H := world) alice "zz" 0 "bogus" ["hashA"] None None []
  = (Returned false, [] ++ [Log warn "verifySignature missing argument"]).
Proof.
  apply (verifySignature_missing_argument
           (H := toy_world (Some alice) (Some alice_ed25519) [] (Returned None))
           alice "zz" 0 "bogus" ["hashA"] None None []).
  left. reflexivity.
Defined.

(** X4. [verifySignature] checks a node's claim against the node's own key:
    whenever it calls libsodium, the public key is the decoded node key,
    the updated hashes were there, the message is the encoded verification
    string and the signature is the decoded signature of the entry; and it
    calls libsodium at most once. *)
Theorem verifySignature_checks_against_node_key `{Collaborators}
    (pubkey : PubKey) (snodePubkey : string) (expiryApplied : Z)
    (signature : string) (messageHashes : list string)
    (updatedHashes : option (list string))
    (unchangedHashes : option (list (string * string)))
    (publicKey : bytes) (tr : Trace) :
  fromHexToArray snodePubkey = Returned publicKey →
  ∃ ev,
    snd (verifySignature pubkey snodePubkey expiryApplied signature
           messageHashes updatedHashes unchangedHashes tr) = tr ++ ev
    ∧ (verify_calls ev ≤ 1)%nat
    ∧ ∀ sigBytes message key,
        Verify sigBytes message key ∈ ev →
        key = publicKey
        ∧ (∃ spread,
             updatedHashes = Some spread
             ∧ message
               = StringUtils_encode
                   (verifySignature_verificationString pubkey expiryApplied
                      messageHashes spread unchangedHashes))
        ∧ fromBase64ToArray signature = Returned sigBytes.
Proof.
  intros Hkey.
  destruct (bool_decide (expiryApplied = 0)
            || isEmpty (JsArray (JsString <$> messageHashes))
            || isEmpty (JsString signature)) eqn:Hguard.
  { unfold verifySignature. rewrite Hguard. eexists. split; [done|].
    unfold verify_calls. simpl. split; [lia|].
    intros s m k Hin. apply elem_of_cons in Hin as [Hin|Hin]; [discriminate|].
    by apply elem_of_nil in Hin. }
  destruct updatedHashes as [spread|].
  - rewrite (verifySignature_run _ _ _ _ _ _ _ publicKey tr Hguard Hkey).
    unfold verify_calls.
    destruct (fromBase64ToArray signature) as [sigBytes|e]; simpl.
    + destruct (crypto_sign_verify_detached _ _ _) as [b|e]; simpl;
        (eexists; split; [done|]; simpl; split; [lia|]);
        intros s m k Hin; repeat (apply elem_of_cons in Hin as [Hin|Hin]);
        try discriminate; try (by apply elem_of_nil in Hin);
        injection Hin as -> -> ->; (split; [done|]); (split; [|done]);
        by exists spread.
    + eexists. split; [done|]. simpl. split; [lia|].
      intros s m k Hin; repeat (apply elem_of_cons in Hin as [Hin|Hin]);
        try discriminate. by apply elem_of_nil in Hin.
  - pose proof (verifySignature_throw_run pubkey snodePubkey expiryApplied
                  signature messageHashes None unchangedHashes tr Hguard) as Hthrow.
    rewrite Hkey in Hthrow. rewrite Hthrow. exists []. simpl.
    rewrite app_nil_r. split; [done|]. unfold verify_calls. simpl. split; [lia|].
    intros s m k Hin. by apply elem_of_nil in Hin.
Qed.

Lemma verifySignature_checks_against_node_key_witness :
  let world := toy_world (Some alice) (Some alice_ed25519) [] (Returned None) in
  ∃ ev,
    snd (verifySignature (H := world) alice "bb02" 1700000060000 "forged"
           ["hashA"] (Some ["hashA"]) None []) = [] ++ ev
    ∧ (verify_calls ev ≤ 1)%nat
    ∧ ∀ sigBytes message key,
        Verify sigBytes message key ∈ ev →
        key = String.list_byte_of_string "bb02"
        ∧ (∃ spread,
             Some ["hashA"] = Some spread
             ∧ message
               = StringUtils_encode (Collaborators := world)
                   (verifySignature_verificationString alice 1700000060000
                      ["hashA"] spread None))
        ∧ fromBase64ToArray (Collaborators := world) "forged" = Returned sigBytes.
Proof.
  apply (verifySignature_checks_against_node_key
           (H := toy_world (Some alice) (Some alice_ed25519) [] (Returned None))
           alice "bb02" 1700000060000 "forged" ["hashA"] (Some ["hashA"]) None
           (String.list_byte_of_string "bb02") []).
  reflexivity.
Defined.

(** X5. Two errors can leave [verifySignature], both raised before its try
    block is entered, and only when an expiry, requested hashes and a
    signature are there: the error the hex decoder throws on the node key,
    and, when the key decodes, the TypeError of spreading updated hashes
    that are not there.  It throws in exactly these two cases, and then
    without having logged or checked anything. *)
Theorem verifySignature_throws_only_before_try `{Collaborators}
    (pubkey : PubKey) (snodePubkey : string) (expiryApplied : Z)
    (signature : string) (messageHashes : list string)
    (updatedHashes : option (list string))
    (unchangedHashes : option (list (string * string)))
    (e : JsError) (tr : Trace) :
  (fst (verifySignature pubkey snodePubkey expiryApplied signature
          messageHashes updatedHashes unchangedHashes tr) = Thrown e
   ↔ expiryApplied ≠ 0 ∧ messageHashes ≠ [] ∧ signature ≠ ""
     ∧ (fromHexToArray snodePubkey = Thrown e
        ∨ ((∃ publicKey, fromHexToArray snodePubkey = Returned publicKey)
           ∧ updatedHashes = None
           ∧ e = TypeError "updatedHashes is not iterable")))
  ∧ (fst (verifySignature pubkey snodePubkey expiryApplied signature
            messageHashes updatedHashes unchangedHashes tr) = Thrown e →
     verifySignature pubkey snodePubkey expiryApplied signature
       messageHashes updatedHashes unchangedHashes tr = (Thrown e, tr)).
Proof.
  assert (fst (verifySignature pubkey snodePubkey expiryApplied signature
                 messageHashes updatedHashes unchangedHashes tr) = Thrown e →
          (expiryApplied ≠ 0 ∧ messageHashes ≠ [] ∧ signature ≠ ""
           ∧ (fromHexToArray snodePubkey = Thrown e
              ∨ ((∃ publicKey, fromHexToArray snodePubkey = Returned publicKey)
                 ∧ updatedHashes = None
                 ∧ e = TypeError "updatedHashes is not iterable")))
          ∧ verifySignature pubkey snodePubkey expiryApplied signature
              messageHashes updatedHashes unchangedHashes tr = (Thrown e, tr))
    as Hforward.
  { intros Hthrown.
    destruct (bool_decide (expiryApplied = 0)
              || isEmpty (JsArray (JsString <$> messageHashes))
              || isEmpty (JsString signature)) eqn:Hguard.
    { revert Hthrown. unfold verifySignature. by rewrite Hguard. }
    pose proof (verifySignature_throw_run pubkey snodePubkey expiryApplied
                  signature messageHashes updatedHashes unchangedHashes tr
                  Hguard) as Hthrow.
    pose proof (proj1 (verifySignature_guard_false _ _ _) Hguard)
      as (Hexp & Hhashes & Hsig).
    destruct (fromHexToArray snodePubkey) as [publicKey|e'] eqn:Hkey.
    - destruct updatedHashes as [spread|].
      + by rewrite (verifySignature_returns _ _ _ _ _ _ _ publicKey tr Hkey)
          in Hthrown.
      + rewrite Hthrow in Hthrown |- *. injection Hthrown as <-.
        repeat split; try done. right. split; [by eexists|done].
    - rewrite Hthrow in Hthrown |- *. injection Hthrown as <-.
      repeat split; try done. by left. }
  split; [split|]; [by intros Hthrown; apply Hforward| |by intros Hthrown; apply Hforward].
  intros (Hexp & Hhashes & Hsig & Hcause).
  assert (bool_decide (expiryApplied = 0)
          || isEmpty (JsArray (JsString <$> messageHashes))
          || isEmpty (JsString signature) = false) as Hguard
    by by apply verifySignature_guard_false.
  pose proof (verifySignature_throw_run pubkey snodePubkey expiryApplied
                signature messageHashes updatedHashes unchangedHashes tr
                Hguard) as Hthrow.
  destruct Hcause as [Hkey | ([publicKey Hkey] & -> & ->)];
    rewrite Hkey in Hthrow; by rewrite Hthrow.
Qed.

Lemma verifySignature_throws_only_before_try_witness :
  let world := toy_world (Some alice) (Some alice_ed25519) [] (Returned None) in
  verifySignature (H := world) alice "aa01" 1700000060000 "forged"
    ["hashA"] None None []
  = (Thrown (TypeError "updatedHashes is not iterable"), []).
Proof.
  apply (proj2 (verifySignature_throws_only_before_try
                  (H := toy_world (Some alice) (Some alice_ed25519) [] (Returned None))
                  alice "aa01" 1700000060000 "forged" ["hashA"] None None
                  (TypeError "updatedHashes is not iterable") [])).
  reflexivity.
Defined.

(** * Further properties of one attempt *)

(** The run of [expireOnNodes] after the transport has answered. *)
Lemma expireOnNodes_answer_run `{Collaborators} targetNode params
    (answer : option RpcResult) tr :
  snodeRpc targetNode (rpcParams params) (key (pubkey params)) = Returned answer →
  let sent := tr ++ [Rpc targetNode (rpcParams params) (key (pubkey params))] in
  expireOnNodes targetNode params tr
  = match answer with
    | None => (Returned false, sent)
    | Some result =>
        if negb (status result =? 200) || bool_decide (body result = "")
        then (Returned false, sent)
        else
          match JSON_parse_swarm (body result) with
          | Thrown _ =>
              (Returned false,
               sent ++ [Log warn "expireOnNodes Failed to parse 'swarm' result: "])
          | Returned swarm =>
              match processExpirationResults (pubkey params) targetNode swarm
                      (messages params) sent with
              | (Returned _, tr') =>
                  (Returned true,
                   tr' ++ [Log debug "expireOnNodes attempt complete. Here are the results"])
              | (Thrown _, tr') =>
                  (Returned false,
                   tr' ++ [Log warn "expireOnNodes Failed to parse 'swarm' result: "])
              end
          end
    end.
Proof.
  intros Hrpc sent. subst sent.
  unfold expireOnNodes. cbv zeta.
  unfold try_catch at 1, bind at 1, emit, bind at 1, lift. rewrite Hrpc.
  destruct answer as [result|]; [|done].
  destruct (negb (status result =? 200) || bool_decide (body result = "")); [done|].
  unfold try_catch, bind at 1.
  destruct (JSON_parse_swarm (body result)) as [swarm|e]; [|done].
  unfold bind at 1.
  destruct (processExpirationResults _ _ _ _ _) as [[results|e] tr']; done.
Qed.

Lemma expireOnNodes_transport_error_run `{Collaborators} targetNode params e tr :
  snodeRpc targetNode (rpcParams params) (key (pubkey params)) = Thrown e →
  expireOnNodes targetNode params tr
  = (Thrown e,
     tr ++ [Rpc targetNode (rpcParams params) (key (pubkey params));
            Log warn ("expire - send error: destination " +:+ ip targetNode
                        +:+ ":" +:+ Number_toString (port targetNode))]).
Proof.
  intros Hrpc. unfold expireOnNodes. cbv zeta.
  unfold try_catch at 1, bind at 1, emit, bind at 1, lift. rewrite Hrpc.
  unfold bind, window_log, emit, throw. by rewrite <- !app_assoc.
Qed.

(** X6. [expireOnNodes] throws exactly when the transport throws, and then
    the transport's own error, after one warning; whenever the transport
    answers, whatever the answer holds, the attempt returns a boolean and
    everything it does after its one RPC call stays local. *)
Theorem expireOnNodes_throws_only_transport_errors `{Collaborators}
    (targetNode : Snode) (params : ExpireParams) (tr : Trace) :
  match snodeRpc targetNode (rpcParams params) (key (pubkey params)) with
  | Thrown e =>
      expireOnNodes targetNode params tr
      = (Thrown e,
         tr ++ [Rpc targetNode (rpcParams params) (key (pubkey params));
                Log warn ("expire - send error: destination " +:+ ip targetNode
                            +:+ ":" +:+ Number_toString (port targetNode))])
  | Returned answer =>
      ∃ (success : bool) ev,
        expireOnNodes targetNode params tr
        = (Returned success,
           tr ++ Rpc targetNode (rpcParams params) (key (pubkey params)) :: ev)
        ∧ Forall is_local ev
  end.
Proof.
  destruct (snodeRpc _ _ _) as [answer|e] eqn:Hrpc.
  - rewrite (expireOnNodes_answer_run _ _ answer tr Hrpc).
    destruct answer as [result|]; [|by exists false, []].
    destruct (_ || _); [by exists false, []|].
    destruct (JSON_parse_swarm (body result)) as [swarm|e].
    + destruct (emits_run _ _ (tr ++ [Rpc targetNode (rpcParams params) (key (pubkey params))])
                  (emits_processExpirationResults (pubkey params) targetNode swarm
                     (messages params)))
        as (o & ev & -> & Hev & _).
      destruct o as [results|e]; eexists _, (ev ++ [_]);
        (split; [by rewrite <- !app_assoc|]);
        apply Forall_app; split; try done; by repeat constructor.
    + eexists _, [_]. split; [by rewrite <- !app_assoc|]. by repeat constructor.
  - by apply expireOnNodes_transport_error_run.
Qed.

(** X7. An attempt returns [true] only for an answer with status 200 and
    a non-empty body that parses to a non-empty swarm object all of whose
    entries could be processed. *)
Theorem expireOnNodes_true_only_for_processed_answer `{Collaborators}
    (targetNode : Snode) (params : ExpireParams) (tr : Trace) :
  fst (expireOnNodes targetNode params tr) = Returned true →
  ∃ result swarm results,
    snodeRpc targetNode (rpcParams params) (key (pubkey params))
    = Returned (Some result)
    ∧ status result = 200
    ∧ body result ≠ ""
    ∧ JSON_parse_swarm (body result) = Returned (Some swarm)
    ∧ swarm ≠ []
    ∧ fst (processExpirationResults (pubkey params) targetNode (Some swarm)
             (messages params)
             (tr ++ [Rpc targetNode (rpcParams params) (key (pubkey params))]))
      = Returned results.
Proof.
  intros Htrue.
  destruct (snodeRpc _ _ _) as [answer|e] eqn:Hrpc;
    [|by rewrite (expireOnNodes_transport_error_run _ _ e tr Hrpc) in Htrue].
  rewrite (expireOnNodes_answer_run _ _ answer tr Hrpc) in Htrue.
  destruct answer as [result|]; [|done].
  destruct (negb (status result =? 200)) eqn:Hstatus; [done|].
  case_bool_decide as Hbody; [done|]. simpl in Htrue.
  destruct (JSON_parse_swarm (body result)) as [swarm|e] eqn:Hparse; [|done].
  destruct (processExpirationResults _ _ _ _ _) as [[results|e] tr'] eqn:Hprocess;
    [|done].
  destruct swarm as [[|first rest]|]; [done| |done].
  exists result, (first :: rest), results.
  apply negb_false_iff, Z.eqb_eq in Hstatus.
  by rewrite Hprocess.
Qed.

Lemma expireOnNodes_true_only_for_processed_answer_witness :
  let world :=
    toy_world (Some alice) (Some alice_ed25519) [node1] (Returned (Some sample_answer)) in
  let params :=
    {| pubkey := alice; pubkey_ed25519 := "ABCD"; messages := ["hashA"];
       expiry := 1700000060000; extend := None; shorten := None;
       signature := "5ec7e7" |} in
  fst (expireOnNodes (H := world) node1 params []) = Returned true
  ∧ ∃ result swarm,
      snodeRpc (Collaborators := world) node1 (rpcParams params) (key (pubkey params))
      = Returned (Some result)
      ∧ status result = 200
      ∧ JSON_parse_swarm (Collaborators := world) (body result) = Returned (Some swarm)
      ∧ swarm ≠ [].
Proof.
  split; [vm_compute; reflexivity|].
  destruct (expireOnNodes_true_only_for_processed_answer
              (H := toy_world (Some alice) (Some alice_ed25519) [node1]
                      (Returned (Some sample_answer)))
              node1
              {| pubkey := alice; pubkey_ed25519 := "ABCD"; messages := ["hashA"];
                 expiry := 1700000060000; extend := None; shorten := None;
                 signature := "5ec7e7" |} [])
    as (result & swarm & results & Hrpc & Hstatus & _ & Hparse & Hne & _).
  - vm_compute. reflexivity.
  - exists result, swarm. repeat split; assumption.
Defined.

(** X8. An answer that is missing, has a status other than 200 or has an
    empty body makes the attempt return [false] straight after its RPC
    call: nothing is parsed, checked or logged. *)
Theorem expireOnNodes_rejects_bad_status `{Collaborators}
    (targetNode : Snode) (params : ExpireParams)
    (answer : option RpcResult) (tr : Trace) :
  snodeRpc targetNode (rpcParams params) (key (pubkey params)) = Returned answer →
  (answer = None
   ∨ ∃ result, answer = Some result ∧ (status result ≠ 200 ∨ body result = "")) →
  expireOnNodes targetNode params tr
  = (Returned false,
     tr ++ [Rpc targetNode (rpcParams params) (key (pubkey params))]).
Proof.
  intros Hrpc Hbad.
  rewrite (expireOnNodes_answer_run _ _ answer tr Hrpc).
  destruct Hbad as [-> | (result & -> & Hbad)]; [done|].
  destruct Hbad as [Hstatus | Hbody].
  - apply Z.eqb_neq in Hstatus. by rewrite Hstatus.
  - rewrite Hbody. simpl. by rewrite orb_true_r.
Qed.

Lemma expireOnNodes_rejects_bad_status_witness :
  let world :=
    {| fromHexToArray := toy_decode "zz";
       fromBase64ToArray := toy_decode "%%";
       fromUInt8ArrayToBase64 := String.string_of_list_byte;
       StringUtils_encode := String.list_byte_of_string;
       crypto_sign_detached := toy_sign;
       crypto_sign_verify_detached := toy_verify;
       getOurPubKeyFromCache := Some alice;
       getUserED25519KeyPair := Some alice_ed25519;
       getSwarmFor := λ _, [node1];
       getNowWithNetworkOffset := λ tr, 1700000000000;
       DEFAULT_CONNECTIONS := 1;
       snodeRpc := λ _ _ _, Returned (Some {| status := 421; body := "wrong swarm" |});
       JSON_parse_swarm := λ _, Returned (Some sample_answer);
       firstTrue := toy_firstTrue;
       window_log_has_eror := false |} in
  let params :=
    {| pubkey := alice; pubkey_ed25519 := "ABCD"; messages := ["hashA"];
       expiry := 1700000060000; extend := None; shorten := None;
       signature := "5ec7e7" |} in
  expireOnNodes (H := world) node1 params []
  = (Returned false, [] ++ [Rpc node1 (rpcParams params) "05a11ce"]).
Proof.
  intros world params.
  apply (expireOnNodes_rejects_bad_status (H := world) node1 params
           (Some {| status := 421; body := "wrong swarm" |}) []).
  - reflexivity.
  - right. eexists. split; [reflexivity|]. left. discriminate.
Defined.

(** X9. With status 200 and a body, the attempt still returns [false], its
    last act being the warning that the swarm result could not be parsed,
    whenever the body does not parse, holds no swarm object or an empty
    one, or an entry makes the processing throw; none of these errors
    leaves the attempt. *)
Theorem expireOnNodes_swallows_processing_errors `{Collaborators}
    (targetNode : Snode) (params : ExpireParams) (result : RpcResult) (tr : Trace) :
  snodeRpc targetNode (rpcParams params) (key (pubkey params))
  = Returned (Some result) →
  status result = 200 →
  body result ≠ "" →
  (∃ e, JSON_parse_swarm (body result) = Thrown e)
  ∨ JSON_parse_swarm (body result) = Returned None
  ∨ JSON_parse_swarm (body result) = Returned (Some [])
  ∨ (∃ swarm e,
       JSON_parse_swarm (body result) = Returned swarm
       ∧ fst (processExpirationResults (pubkey params) targetNode swarm
                (messages params)
                (tr ++ [Rpc targetNode (rpcParams params) (key (pubkey params))]))
         = Thrown e) →
  ∃ ev,
    expireOnNodes targetNode params tr
    = (Returned false,
       tr ++ Rpc targetNode (rpcParams params) (key (pubkey params)) :: ev
          ++ [Log warn "expireOnNodes Failed to parse 'swarm' result: "])
    ∧ Forall is_local ev.
Proof.
  intros Hrpc Hstatus Hbody Hbad.
  rewrite (expireOnNodes_answer_run _ _ (Some result) tr Hrpc).
  rewrite Hstatus. simpl. rewrite bool_decide_eq_false_2 by done.
  assert (∀ swarm e,
    JSON_parse_swarm (body result) = Returned swarm →
    fst (processExpirationResults (pubkey params) targetNode swarm (messages params)
           (tr ++ [Rpc targetNode (rpcParams params) (key (pubkey params))]))
    = Thrown e →
    ∃ ev,
      match JSON_parse_swarm (body result) with
      | Thrown _ =>
          (Returned false,
           (tr ++ [Rpc targetNode (rpcParams params) (key (pubkey params))])
             ++ [Log warn "expireOnNodes Failed to parse 'swarm' result: "])
      | Returned swarm =>
          match processExpirationResults (pubkey params) targetNode swarm
                  (messages params)
                  (tr ++ [Rpc targetNode (rpcParams params) (key (pubkey params))]) with
          | (Returned _, tr') =>
              (Returned true,
               tr' ++ [Log debug "expireOnNodes attempt complete. Here are the results"])
          | (Thrown _, tr') =>
              (Returned false,
               tr' ++ [Log warn "expireOnNodes Failed to parse 'swarm' result: "])
          end
      end
      = (Returned false,
         tr ++ Rpc targetNode (rpcParams params) (key (pubkey params)) :: ev
            ++ [Log warn "expireOnNodes Failed to parse 'swarm' result: "])
      ∧ Forall is_local ev) as Hthrown.
  { intros swarm e -> Hprocess.
    destruct (emits_run _ _ (tr ++ [Rpc targetNode (rpcParams params) (key (pubkey params))])
                (emits_processExpirationResults (pubkey params) targetNode swarm
                   (messages params)))
      as (o & ev & Hrun & Hev & _).
    rewrite Hrun in Hprocess |- *. simpl in Hprocess. subst o.
    exists ev. by rewrite <- !app_assoc. }
  destruct Hbad as [[e Hparse] | [Hparse | [Hparse | (swarm & e & Hparse & Hprocess)]]].
  - rewrite Hparse. exists []. by rewrite <- !app_assoc.
  - by apply (Hthrown None (Error ("expireOnNodes failed! " +:+ Array_join "," (messages params)))).
  - by apply (Hthrown (Some []) (Error ("expireOnNodes failed! " +:+ Array_join "," (messages params)))).
  - by apply (Hthrown swarm e).
Qed.

Lemma expireOnNodes_swallows_processing_errors_witness :
  let world := toy_world (Some alice) (Some alice_ed25519) [node1] (Returned (Some [])) in
  let params :=
    {| pubkey := alice; pubkey_ed25519 := "ABCD"; messages := ["hashA"];
       expiry := 1700000060000; extend := None; shorten := None;
       signature := "5ec7e7" |} in
  ∃ ev,
    expireOnNodes (H := world) node1 params []
    = (Returned false,
       [] ++ Rpc node1 (rpcParams params) "05a11ce" :: ev
          ++ [Log warn "expireOnNodes Failed to parse 'swarm' result: "])
    ∧ Forall is_local ev.
Proof.
  intros world params.
  apply (expireOnNodes_swallows_processing_errors (H := world) node1 params
           {| status := 200; body := "{...}" |} []).
  - reflexivity.
  - reflexivity.
  - discriminate.
  - right. right. left. reflexivity.
Defined.

(** * Further properties of [processExpirationResults] *)







(** * Further properties of the coordinator *)

Lemma emits_any_expireOnNodes `{Collaborators} targetNode params :
  emits (λ _, True) (expireOnNodes targetNode params).
Proof.
  unfold expireOnNodes. cbv zeta.
  apply emits_try_catch; [|emits].
  apply emits_bind; [emits|]. intros _.
  apply emits_bind; [emits|]. intros [result|]; [|emits].
  destruct (_ || _); [emits|].
  apply emits_try_catch; [|emits].
  apply emits_bind; [emits|]. intros swarm.
  apply emits_bind; [|emits].
  eapply emits_weaken; [|apply emits_processExpirationResults]. done.
Qed.

(** The promises handed to [firstTrue]: one per node, in order. *)
Lemma promises_values `{Collaborators} params (usedNodes : list Snode) tr :
  fst (mapM (expireMessageOnSnode_promise params) usedNodes tr)
  = Returned (promise_value params <$> usedNodes).
Proof.
  revert tr. induction usedNodes as [|n rest IH]; intros tr; simpl; [done|].
  unfold bind at 1.
  assert (∃ tr', expireMessageOnSnode_promise params n tr
                 = (Returned (promise_value params n), tr')) as [tr' ->].
  { unfold expireMessageOnSnode_promise, settle, bind, promise_value.
    destruct (emits_any_expireOnNodes n params) as [Hu _].
    rewrite (Hu tr).
    destruct (fst (expireOnNodes n params [])) as [[]|e]; unfold ret; eauto. }
  unfold bind at 1. specialize (IH tr').
  destruct (mapM _ rest tr') as [o tr'']. simpl in IH. by subst o.
Qed.

(** The coordinator after the request has been signed: what is left to do,
    started after the prelude. *)
Lemma expireMessageOnSnode_signed_unfold `{Collaborators}
    (props : ExpireMessageOnSnodeProps) (tr : Trace)
    (ourPubKey : PubKey) (ourEd25519Key : HexKeyPair) (secretKey sig : bytes) :
  truthy (props_extend props) && truthy (props_shorten props) = false →
  getOurPubKeyFromCache = Some ourPubKey →
  getUserED25519KeyPair = Some ourEd25519Key →
  fromHexToArray (privKey ourEd25519Key) = Returned secretKey →
  crypto_sign_detached (expireMessageOnSnode_message props ourPubKey tr) secretKey
  = Returned sig →
  let params :=
    expireMessageOnSnode_params ourPubKey ourEd25519Key (messageHash props)
      (expireMessageOnSnode_expiry props ourPubKey tr)
      (props_extend props) (props_shorten props)
      {| sig_signature := fromUInt8ArrayToBase64 sig;
         sig_pubkey_ed25519 := pubKey ourEd25519Key |} in
  let usedNodes := take DEFAULT_CONNECTIONS (getSwarmFor (key ourPubKey)) in
  expireMessageOnSnode props tr
  = (if bool_decide (length usedNodes = 0%nat)
     then throw (EmptySwarmError (key ourPubKey) "Ran out of swarm nodes to query")
     else
       let! promises := mapM (expireMessageOnSnode_promise params) usedNodes in
       try_catch
         (let! firstSuccessSnode := lift (firstTrue promises) in
          ret tt)
         (λ e,
            window_log warn
              ("loki_message:::expireMessage - by " +:+ key ourPubKey
                 +:+ " for " +:+ messageHash props +:+ " via snode:null");;
            throw e))
      (tr ++ expireMessageOnSnode_prelude props ourPubKey secretKey tr).
Proof.
  intros Hflags Hpub Hed Hkey Hsign params usedNodes.
  unfold expireMessageOnSnode. rewrite Hflags, Hpub, Hed.
  unfold bind at 1, emit.
  unfold bind at 1, readNetworkTime.
  unfold bind at 1, generateSignature.
  unfold bind at 1, lift. rewrite Hkey.
  unfold bind at 1. simpl window_log. unfold emit.
  unfold try_catch at 1, bind at 1.
  unfold bind at 1.
  unfold expireMessageOnSnode_message, expireMessageOnSnode_expiry in Hsign.
  rewrite Hsign. unfold ret at 1.
  unfold expireMessageOnSnode_prelude, expireMessageOnSnode_message.
  by rewrite <- !app_assoc.
Qed.

(** X12. After signing, with at least one node to use, the coordinator
    hands [firstTrue] one promise per node used, in swarm order: the node
    itself when the attempt on it returned [true], [undefined] when it
    returned [false], a rejection with the transport's error when it threw.
    It returns when [firstTrue] resolves and rethrows what [firstTrue]
    rejects with. *)
Theorem expireMessageOnSnode_settles_as_firstTrue `{Collaborators}
    (props : ExpireMessageOnSnodeProps) (tr : Trace)
    (ourPubKey : PubKey) (ourEd25519Key : HexKeyPair) (secretKey sig : bytes) :
  truthy (props_extend props) && truthy (props_shorten props) = false →
  getOurPubKeyFromCache = Some ourPubKey →
  getUserED25519KeyPair = Some ourEd25519Key →
  fromHexToArray (privKey ourEd25519Key) = Returned secretKey →
  crypto_sign_detached (expireMessageOnSnode_message props ourPubKey tr) secretKey
  = Returned sig →
  take DEFAULT_CONNECTIONS (getSwarmFor (key ourPubKey)) ≠ [] →
  let params :=
    expireMessageOnSnode_params ourPubKey ourEd25519Key (messageHash props)
      (expireMessageOnSnode_expiry props ourPubKey tr)
      (props_extend props) (props_shorten props)
      {| sig_signature := fromUInt8ArrayToBase64 sig;
         sig_pubkey_ed25519 := pubKey ourEd25519Key |} in
  let promises :=
    promise_value params <$> take DEFAULT_CONNECTIONS (getSwarmFor (key ourPubKey)) in
  fst (expireMessageOnSnode props tr)
  = match firstTrue promises with
    | Returned _ => Returned tt
    | Thrown e => Thrown e
    end.
Proof.
  intros Hflags Hpub Hed Hkey Hsign Hnodes params promises.
  rewrite (expireMessageOnSnode_signed_unfold props tr ourPubKey ourEd25519Key
             secretKey sig Hflags Hpub Hed Hkey Hsign).
  fold params.
  rewrite bool_decide_eq_false_2; cycle 1.
  { intros Hlen. by apply nil_length_inv in Hlen. }
  unfold bind at 1.
  pose proof (promises_values params
                (take DEFAULT_CONNECTIONS (getSwarmFor (key ourPubKey)))
                (tr ++ expireMessageOnSnode_prelude props ourPubKey secretKey tr)) as Hvalues.
  destruct (mapM _ _ _) as [o tr']. simpl in Hvalues. subst o.
  fold promises. unfold try_catch, bind, lift.
  by destruct (firstTrue promises).
Qed.

Lemma expireMessageOnSnode_settles_as_firstTrue_witness :
  let world :=
    toy_world (Some alice) (Some alice_ed25519) [node1; node2; node3]
      (Returned (Some sample_answer)) in
  fst (expireMessageOnSnode (H := world) (sample_props None (Some true)) [])
  = Returned tt.
Proof.
  apply (expireMessageOnSnode_settles_as_firstTrue
           (H := toy_world (Some alice) (Some alice_ed25519) [node1; node2; node3]
                   (Returned (Some sample_answer)))
           (sample_props None (Some true)) [] alice alice_ed25519
           (String.list_byte_of_string "5ec7e7")
           (String.list_byte_of_string "5ec7e7expireshorten1700000060001hashA"));
    [reflexivity | reflexivity | reflexivity | reflexivity | reflexivity | discriminate].
Defined.

(** The RPC calls of a run: none, or the same parameters to each of the
    first [DEFAULT_CONNECTIONS] nodes of the owner's swarm. *)
Lemma expireMessageOnSnode_rpc_calls `{Collaborators}
    (props : ExpireMessageOnSnodeProps) (tr : Trace) :
  ∃ ev,
    snd (expireMessageOnSnode props tr) = tr ++ ev
    ∧ (rpc_calls ev = []
       ∨ ∃ ourPubKey ourEd25519Key secretKey sig,
           truthy (props_extend props) && truthy (props_shorten props) = false
           ∧ getOurPubKeyFromCache = Some ourPubKey
           ∧ getUserED25519KeyPair = Some ourEd25519Key
           ∧ fromHexToArray (privKey ourEd25519Key) = Returned secretKey
           ∧ crypto_sign_detached
               (expireMessageOnSnode_message props ourPubKey tr) secretKey
             = Returned sig
           ∧ rpc_calls ev
             = (λ usedNode,
                  (usedNode,
                   rpcParams
                     (expireMessageOnSnode_params ourPubKey ourEd25519Key
                        (messageHash props)
                        (expireMessageOnSnode_expiry props ourPubKey tr)
                        (props_extend props) (props_shorten props)
                        {| sig_signature := fromUInt8ArrayToBase64 sig;
                           sig_pubkey_ed25519 := pubKey ourEd25519Key |})))
                 <$> take DEFAULT_CONNECTIONS (getSwarmFor (key ourPubKey))).
Proof.
  destruct (truthy (props_extend props) && truthy (props_shorten props)) eqn:Hflags.
  { rewrite (expireMessageOnSnode_both_flags props tr Hflags).
    eexists. split; [done|]. by left. }
  destruct getOurPubKeyFromCache as [ourPubKey|] eqn:Hpub; cycle 1.
  { rewrite (expireMessageOnSnode_missing_key props tr Hflags (or_introl Hpub)).
    destruct window_log_has_eror; simpl.
    - eexists. split; [done|]. by left.
    - exists []. rewrite app_nil_r. split; [done|]. by left. }
  destruct getUserED25519KeyPair as [ourEd25519Key|] eqn:Hed; cycle 1.
  { rewrite (expireMessageOnSnode_missing_key props tr Hflags (or_intror Hed)).
    destruct window_log_has_eror; simpl.
    - eexists. split; [done|]. by left.
    - exists []. rewrite app_nil_r. split; [done|]. by left. }
  destruct (fromHexToArray (privKey ourEd25519Key)) as [secretKey|e] eqn:Hkey; cycle 1.
  { rewrite (expireMessageOnSnode_undecodable_key props tr _ _ e Hflags Hpub Hed Hkey).
    eexists. split; [done|]. by left. }
  destruct (prelude_counts props ourPubKey secretKey tr) as (Hrpc0 & _ & _).
  destruct (crypto_sign_detached (expireMessageOnSnode_message props ourPubKey tr) secretKey)
    as [sig|e] eqn:Hsign; cycle 1.
  { rewrite (expireMessageOnSnode_signing_failed props tr _ _ _ e
               Hflags Hpub Hed Hkey Hsign).
    eexists. split; [done|]. left. by rewrite rpc_calls_app, Hrpc0. }
  destruct (expireMessageOnSnode_signed_run props tr ourPubKey ourEd25519Key
              secretKey sig Hflags Hpub Hed Hkey Hsign)
    as (o & post & Hrun & Hrpc & _).
  rewrite Hrun. eexists. split; [done|]. right.
  exists ourPubKey, ourEd25519Key, secretKey, sig.
  rewrite rpc_calls_app, Hrpc0. by repeat split.
Qed.

(** X13. The flags sent agree with the token signed.  In every RPC call of
    every run, [extend] and [shorten] are each [true] or absent and never
    both [true], they are the truthy flags of the request, and the token in
    the signed string is the one a node recomputes from them: "shorten" when
    [shorten] is there, else "extend" when [extend] is there, else empty. *)
Theorem expireMessageOnSnode_flags_match_token `{Collaborators}
    (props : ExpireMessageOnSnodeProps) (tr : Trace) :
  ∃ ev,
    snd (expireMessageOnSnode props tr) = tr ++ ev
    ∧ Forall
        (λ call : Snode * RpcParams,
           let params := call.2 in
           rpc_extend params = or_undefined (props_extend props)
           ∧ rpc_shorten params = or_undefined (props_shorten props)
           ∧ rpc_extend params ≠ Some false
           ∧ rpc_shorten params ≠ Some false
           ∧ ¬ (rpc_extend params = Some true ∧ rpc_shorten params = Some true)
           ∧ shortenOrExtend (props_extend props) (props_shorten props)
             = match rpc_shorten params, rpc_extend params with
               | Some _, _ => "shorten"
               | None, Some _ => "extend"
               | None, None => ""
               end)
        (rpc_calls ev).
Proof.
  destruct (expireMessageOnSnode_rpc_calls props tr) as (ev & Hrun & Hcalls).
  exists ev. split; [done|].
  destruct Hcalls as [-> | (pk & kp & sk & sig & Hflags & _ & _ & _ & _ & ->)];
    [by constructor|].
  apply Forall_fmap, Forall_forall. intros n _. simpl.
  unfold or_undefined, shortenOrExtend.
  destruct (truthy (props_extend props)), (truthy (props_shorten props));
    simpl in *; try done; repeat split; try done; by intros [? ?].
Qed.

(** X14. A run contacts at most [DEFAULT_CONNECTIONS] nodes, each of them a
    node of the owner's swarm, and every call is made in the owner's name,
    for the one message hash of the request, with the owner's Ed25519
    public key in upper case. *)
Theorem expireMessageOnSnode_fan_out_bounded `{Collaborators}
    (props : ExpireMessageOnSnodeProps) (tr : Trace) :
  ∃ ev,
    snd (expireMessageOnSnode props tr) = tr ++ ev
    ∧ (length (rpc_calls ev) ≤ DEFAULT_CONNECTIONS)%nat
    ∧ Forall
        (λ call : Snode * RpcParams,
           ∃ ourPubKey ourEd25519Key,
             getOurPubKeyFromCache = Some ourPubKey
             ∧ getUserED25519KeyPair = Some ourEd25519Key
             ∧ call.1 ∈ getSwarmFor (key ourPubKey)
             ∧ rpc_pubkey call.2 = key ourPubKey
             ∧ rpc_pubkey_ed25519 call.2 = toUpperCase (pubKey ourEd25519Key)
             ∧ rpc_messages call.2 = [messageHash props])
        (rpc_calls ev).
Proof.
  destruct (expireMessageOnSnode_rpc_calls props tr) as (ev & Hrun & Hcalls).
  exists ev. split; [done|].
  destruct Hcalls as [-> | (pk & kp & sk & sig & _ & Hpub & Hed & _ & _ & ->)].
  { split; [simpl; lia | by constructor]. }
  split.
  - rewrite length_fmap, length_take. lia.
  - apply Forall_fmap, Forall_forall. intros n Hn. simpl.
    exists pk, kp. repeat split; try done.
    by apply subseteq_take in Hn.
Qed.

(** X15. When libsodium refuses to sign, the coordinator logs the failure
    and returns normally; no node is contacted and nothing reaches the
    caller. *)
Theorem expireMessageOnSnode_signing_failure_is_silent `{Collaborators}
    (props : ExpireMessageOnSnodeProps) (tr : Trace)
    (ourPubKey : PubKey) (ourEd25519Key : HexKeyPair) (secretKey : bytes)
    (e : JsError) :
  truthy (props_extend props) && truthy (props_shorten props) = false →
  getOurPubKeyFromCache = Some ourPubKey →
  getUserED25519KeyPair = Some ourEd25519Key →
  fromHexToArray (privKey ourEd25519Key) = Returned secretKey →
  crypto_sign_detached (expireMessageOnSnode_message props ourPubKey tr) secretKey
  = Thrown e →
  ∃ ev,
    expireMessageOnSnode props tr = (Returned tt, tr ++ ev)
    ∧ rpc_calls ev = []
    ∧ last ev
      = Some (Log error "[expireMessageOnSnode] Signing message expiry on swarm failed").
Proof.
  intros Hflags Hpub Hed Hkey Hsign.
  rewrite (expireMessageOnSnode_signing_failed props tr _ _ _ e
             Hflags Hpub Hed Hkey Hsign).
  eexists. split; [done|]. split; [done|].
  by rewrite last_app.
Qed.

Lemma expireMessageOnSnode_signing_failure_is_silent_witness :
  let world :=
    toy_world (Some alice) (Some {| pubKey := "abcd"; privKey := "" |}) [node1]
      (Returned (Some sample_answer)) in
  ∃ ev,
    expireMessageOnSnode (H := world) (sample_props None None) []
    = (Returned tt, [] ++ ev)
    ∧ rpc_calls ev = []
    ∧ last ev
      = Some (Log error "[expireMessageOnSnode] Signing message expiry on swarm failed").
Proof.
  apply (expireMessageOnSnode_signing_failure_is_silent
           (H := toy_world (Some alice) (Some {| pubKey := "abcd"; privKey := "" |})
                   [node1] (Returned (Some sample_answer)))
           (sample_props None None) [] alice {| pubKey := "abcd"; privKey := "" |}
           [] (ForeignError "invalid privateKey length"));
    reflexivity.
Defined.

(** X16. A secret key that cannot be decoded is not handled like a signing
    failure: the decoder's error leaves [expireMessageOnSnode], after the
    swarm lookup and the clock read and before anything is signed or sent. *)
Theorem expireMessageOnSnode_undecodable_key_throws `{Collaborators}
    (props : ExpireMessageOnSnodeProps) (tr : Trace)
    (ourPubKey : PubKey) (ourEd25519Key : HexKeyPair) (e : JsError) :
  truthy (props_extend props) && truthy (props_shorten props) = false →
  getOurPubKeyFromCache = Some ourPubKey →
  getUserED25519KeyPair = Some ourEd25519Key →
  fromHexToArray (privKey ourEd25519Key) = Thrown e →
  ∃ ev,
    expireMessageOnSnode props tr = (Thrown e, tr ++ ev)
    ∧ sign_calls ev = 0%nat
    ∧ rpc_calls ev = []
    ∧ ev = [SwarmLookup (key ourPubKey);
            Clock (getNowWithNetworkOffset (tr ++ [SwarmLookup (key ourPubKey)]))].
Proof.
  intros Hflags Hpub Hed Hkey.
  rewrite (expireMessageOnSnode_undecodable_key props tr _ _ e Hflags Hpub Hed Hkey).
  by eexists.
Qed.

Lemma expireMessageOnSnode_undecodable_key_throws_witness :
  let world :=
    toy_world (Some alice) (Some {| pubKey := "abcd"; privKey := "zz" |}) [node1]
      (Returned (Some sample_answer)) in
  ∃ ev,
    expireMessageOnSnode (H := world) (sample_props None None) []
    = (Thrown (ForeignError "malformed input"), [] ++ ev)
    ∧ sign_calls ev = 0%nat
    ∧ rpc_calls ev = []
    ∧ ev = [SwarmLookup "05a11ce"; Clock 1700000000001].
Proof.
  apply (expireMessageOnSnode_undecodable_key_throws
           (H := toy_world (Some alice) (Some {| pubKey := "abcd"; privKey := "zz" |})
                   [node1] (Returned (Some sample_answer)))
           (sample_props None None) [] alice {| pubKey := "abcd"; privKey := "zz" |}
           (ForeignError "malformed input"));
    reflexivity.
Defined.

(** * What the canonical strings bind *)

Lemma String_length_app (a b : string) :
  String.length (a +:+ b) = (String.length a + String.length b)%nat.
Proof.
  induction a as [|c a IH]; [done|].
  rewrite String_app_cons. simpl. by rewrite IH.
Qed.

Lemma String_app_inv_tail (a b r : string) : a +:+ r = b +:+ r → a = b.
Proof.
  intros Heq.
  assert (String.length a = String.length b) as Hlen.
  { apply (f_equal String.length) in Heq. rewrite !String_length_app in Heq. lia. }
  by destruct (String_app_inj_length a b r r Hlen Heq).
Qed.

Lemma Number_toString_inj (n m : Z) : Number_toString n = Number_toString m → n = m.
Proof.
  intros Heq. pose proof (Number_toString_decimal n) as Hn.
  rewrite Heq, Number_toString_decimal in Hn. by injection Hn.
Qed.

(** X17. The signing string binds each field when the others are fixed:
    with the same token and hashes two timestamps give the same string only
    if they are equal; with the same timestamp and hashes so do two tokens;
    and for a request with one message hash, as the coordinator makes it,
    two hashes give the same string only if they are equal. *)
Theorem signing_string_binds_fields
    (token token' : string) (timestamp timestamp' : Z)
    (messageHashes : list string) (messageHash messageHash' : string) :
  (generateSignature_verificationString token timestamp messageHashes
   = generateSignature_verificationString token timestamp' messageHashes
   ↔ timestamp = timestamp')
  ∧ (generateSignature_verificationString token timestamp messageHashes
     = generateSignature_verificationString token' timestamp messageHashes
     ↔ token = token')
  ∧ (generateSignature_verificationString token timestamp [messageHash]
     = generateSignature_verificationString token timestamp [messageHash']
     ↔ messageHash = messageHash').
Proof.
  unfold generateSignature_verificationString. repeat split; try by intros ->.
  - intros Heq. do 2 apply (inj (String.append _)) in Heq.
    apply String_app_inv_tail in Heq. by apply Number_toString_inj.
  - intros Heq. apply (inj (String.append _)) in Heq.
    by apply String_app_inv_tail in Heq.
  - intros Heq. by do 3 apply (inj (String.append _)) in Heq.
Qed.

(** X18. The verification string binds the applied expiry and the owner:
    with the same owner key, requested, updated and unchanged hashes, two
    applied expiries give the same string only if they are equal; and with
    the same expiry and hashes, so do two owner keys. *)
Theorem verification_string_binds_expiry_and_owner
    (pubkey pubkey' : PubKey) (expiryApplied expiryApplied' : Z)
    (messageHashes updatedHashes : list string)
    (unchangedHashes : option (list (string * string))) :
  (verifySignature_verificationString pubkey expiryApplied
     messageHashes updatedHashes unchangedHashes
   = verifySignature_verificationString pubkey expiryApplied'
       messageHashes updatedHashes unchangedHashes
   ↔ expiryApplied = expiryApplied')
  ∧ (verifySignature_verificationString pubkey expiryApplied
       messageHashes updatedHashes unchangedHashes
     = verifySignature_verificationString pubkey' expiryApplied
         messageHashes updatedHashes unchangedHashes
     ↔ key pubkey = key pubkey').
Proof.
  unfold verifySignature_verificationString. repeat split; try by intros ->.
  - intros Heq. apply (inj (String.append _)) in Heq.
    apply String_app_inv_tail in Heq. by apply Number_toString_inj.
  - intros Heq. by apply String_app_inv_tail in Heq.
Qed.

(** * The conversation context menu *)

(** X19. The four moderation items go together: the items to add and to
    remove moderators, to ban and to unban a user are rendered for exactly
    the same conversations, namely the public ones we administer and were
    not kicked from. *)
Theorem moderation_items_rendered_together `{MenuHooks} :
  (is_Some AddModeratorsMenuItem ↔ is_Some RemoveModeratorsMenuItem)
  ∧ (is_Some RemoveModeratorsMenuItem ↔ is_Some BanMenuItem)
  ∧ (is_Some BanMenuItem ↔ is_Some UnbanMenuItem)
  ∧ (is_Some UnbanMenuItem ↔
     useIsPublic useConvoIdFromContext = true
     ∧ useWeAreAdmin useConvoIdFromContext = true
     ∧ useIsKickedFromGroup useConvoIdFromContext = false).
Proof.
  unfold AddModeratorsMenuItem, RemoveModeratorsMenuItem, BanMenuItem, UnbanMenuItem.
  destruct (useIsPublic _), (useWeAreAdmin _), (useIsKickedFromGroup _); simpl;
    repeat split; try done; try (by intros [? [=]]); try (by intros (? & ? & ?)).
Qed.

(** X20. A message request is answered, not managed: the items to accept,
    to decline and to decline and block are rendered together, exactly on
    private incoming requests, and then the items to block, to delete the
    contact, to delete the conversation, to mark all read and to leave are
    not rendered. *)
Theorem request_items_exclude_contact_items `{MenuHooks} :
  (is_Some AcceptMsgRequestMenuItem ↔ is_Some DeclineMsgRequestMenuItem)
  ∧ (is_Some DeclineMsgRequestMenuItem ↔ is_Some DeclineAndBlockMsgRequestMenuItem)
  ∧ (is_Some AcceptMsgRequestMenuItem ↔
     useIsIncomingRequest useConvoIdFromContext = true
     ∧ useIsPrivate useConvoIdFromContext = true)
  ∧ (is_Some AcceptMsgRequestMenuItem →
     BlockMenuItem = None
     ∧ DeletePrivateContactMenuItem = None
     ∧ DeletePrivateConversationMenuItem = None
     ∧ MarkAllReadMenuItem = None
     ∧ LeaveGroupOrCommunityMenuItem = None).
Proof.
  unfold AcceptMsgRequestMenuItem, DeclineMsgRequestMenuItem,
    DeclineAndBlockMsgRequestMenuItem, BlockMenuItem, DeletePrivateContactMenuItem,
    DeletePrivateConversationMenuItem, MarkAllReadMenuItem,
    LeaveGroupOrCommunityMenuItem.
  destruct (useIsIncomingRequest _), (useIsPrivate _); simpl;
    repeat split; try done; try (by intros [? [=]]); try (by intros [? ?]);
    rewrite ?andb_false_r, ?orb_true_r; done.
Qed.

Lemma request_items_exclude_contact_items_witness :
  let hooks := toy_hooks "05b0b" false true false true false false false None None in
  is_Some (AcceptMsgRequestMenuItem (H := hooks))
  ∧ BlockMenuItem (H := hooks) = None
  ∧ MarkAllReadMenuItem (H := hooks) = None.
Proof.
  intros hooks.
  destruct (request_items_exclude_contact_items (H := hooks)) as (_ & _ & _ & Hexcl).
  assert (is_Some (AcceptMsgRequestMenuItem (H := hooks))) as Haccept
    by (eexists; reflexivity).
  destruct (Hexcl Haccept) as (Hblock & _ & _ & Hread & _).
  split; [exact Haccept|]. split; [exact Hblock | exact Hread].
Defined.

(** X21. A nickname can be cleared only where it can be changed: whenever
    the item to clear the nickname is rendered, so is the item to change
    it; neither is rendered on the conversation with oneself, and clearing
    is offered only when there is a nickname. *)
Theorem nickname_items_nested `{MenuHooks} :
  (is_Some ClearNicknameMenuItem → is_Some ChangeNicknameMenuItem)
  ∧ (is_Some ClearNicknameMenuItem → useHasNickname useConvoIdFromContext = true)
  ∧ (useIsMe useConvoIdFromContext = true →
     ClearNicknameMenuItem = None ∧ ChangeNicknameMenuItem = None)
  ∧ (is_Some ChangeNicknameMenuItem →
     useHasNickname useConvoIdFromContext = true →
     is_Some ClearNicknameMenuItem).
Proof.
  unfold ClearNicknameMenuItem, ChangeNicknameMenuItem.
  destruct (useIsMe _), (useHasNickname _), (useIsPrivate _),
    (useIsPrivateAndFriend _); simpl;
    repeat split; try done; try (by intros [? [=]]); by eexists.
Qed.

Lemma nickname_items_nested_witness :
  let hooks := toy_hooks "05b0b" false true true false false true false None None in
  is_Some (ClearNicknameMenuItem (H := hooks))
  ∧ is_Some (ChangeNicknameMenuItem (H := hooks)).
Proof.
  intros hooks.
  destruct (nickname_items_nested (H := hooks)) as (Hnested & _).
  assert (is_Some (ClearNicknameMenuItem (H := hooks))) as Hclear
    by (eexists; reflexivity).
  split; [exact Hclear | exact (Hnested Hclear)].
Defined.

(** X22. Leaving is for groups and communities only: whenever the item to
    leave is rendered, none of the items for a private conversation is,
    that is the items to show the user's details, to delete the contact or
    the conversation, to block, to change or clear the nickname and to
    answer a message request. *)
Theorem leave_item_excludes_private_items `{MenuHooks} :
  is_Some LeaveGroupOrCommunityMenuItem →
  ShowUserDetailsMenuItem = None
  ∧ DeletePrivateContactMenuItem = None
  ∧ DeletePrivateConversationMenuItem = None
  ∧ BlockMenuItem = None
  ∧ ChangeNicknameMenuItem = None
  ∧ ClearNicknameMenuItem = None
  ∧ AcceptMsgRequestMenuItem = None
  ∧ DeclineMsgRequestMenuItem = None
  ∧ DeclineAndBlockMsgRequestMenuItem = None.
Proof.
  unfold LeaveGroupOrCommunityMenuItem, ShowUserDetailsMenuItem,
    DeletePrivateContactMenuItem, DeletePrivateConversationMenuItem, BlockMenuItem,
    ChangeNicknameMenuItem, ClearNicknameMenuItem, AcceptMsgRequestMenuItem,
    DeclineMsgRequestMenuItem, DeclineAndBlockMsgRequestMenuItem.
  destruct (useIsPrivate _); simpl.
  - rewrite andb_false_r. by intros [? [=]].
  - intros _. by rewrite ?andb_false_r, ?orb_true_r.
Qed.

Lemma leave_item_excludes_private_items_witness :
  let hooks := toy_hooks "03group" false false false false false false true None None in
  is_Some (LeaveGroupOrCommunityMenuItem (H := hooks))
  ∧ ShowUserDetailsMenuItem (H := hooks) = None
  ∧ BlockMenuItem (H := hooks) = None.
Proof.
  intros hooks.
  assert (is_Some (LeaveGroupOrCommunityMenuItem (H := hooks))) as Hleave
    by (eexists; reflexivity).
  destruct (leave_item_excludes_private_items (H := hooks) Hleave)
    as (Hdetails & _ & _ & Hblock & _).
  split; [exact Hleave|]. split; [exact Hdetails | exact Hblock].
Defined.

Lemma string_or_undefined_Some (x : option string) (s : string) :
  string_or_undefined x = Some s → x = Some s ∧ s ≠ "".
Proof.
  destruct x as [s'|]; simpl; [|done].
  case_bool_decide; [done|]. by intros [= ->].
Qed.

(** X23. Every click acts on the conversation of the menu: each call made
    by the handler of a rendered item of the conversation context menu
    names the conversation of the context as the conversation it acts on
    (as the id it passes, or as the id under which it looked the
    conversation object up).  The only other conversation id a call carries
    is the selected conversation key, when there is one, which the handlers
    of the two items that decline a request pass along as the currently
    selected conversation.  A handler throws only for the item that accepts
    a request, when the controller holds no conversation under the id of
    the context, and then it has made no call. *)
Theorem menu_items_act_on_context_conversation `{MenuHooks} (item : Item) :
  Some item ∈ conversation_menu_items →
  (∀ call,
     call ∈ handler_calls (item_onClick item) →
     ∃ others,
       Action_conversationIds call = useConvoIdFromContext :: others
       ∧ ∀ other,
           other ∈ others →
           useSelectedConversationKey = Some other
           ∧ other ≠ ""
           ∧ (Some item = DeclineMsgRequestMenuItem
              ∨ Some item = DeclineAndBlockMsgRequestMenuItem))
  ∧ (∀ e,
       handler_throws (item_onClick item) = Some e →
       Some item = AcceptMsgRequestMenuItem
       ∧ getConversationController_get useConvoIdFromContext = false
       ∧ handler_calls (item_onClick item) = []).
Proof.
  assert (∀ decline : option Item,
    decline = DeclineMsgRequestMenuItem ∨ decline = DeclineAndBlockMsgRequestMenuItem →
    ∀ call blockContact,
      call = declineConversationWithConfirm useConvoIdFromContext true blockContact
               (string_or_undefined useSelectedConversationKey) →
      ∃ others,
        Action_conversationIds call = useConvoIdFromContext :: others
        ∧ ∀ other,
            other ∈ others →
            useSelectedConversationKey = Some other
            ∧ other ≠ ""
            ∧ (decline = DeclineMsgRequestMenuItem
               ∨ decline = DeclineAndBlockMsgRequestMenuItem)) as Hdecline.
  { intros decline Hitem call blockContact ->. eexists. split; [reflexivity|].
    intros other Hin.
    destruct (string_or_undefined useSelectedConversationKey) as [selected|] eqn:Hsel;
      simpl in Hin; [|by apply elem_of_nil in Hin].
    apply elem_of_cons in Hin as [->|Hin]; [|by apply elem_of_nil in Hin].
    apply string_or_undefined_Some in Hsel as [Hsel Hne]. done. }
  unfold conversation_menu_items. intros Hitem.
  repeat (apply elem_of_cons in Hitem as [Hitem|Hitem]);
    [..|by apply elem_of_nil in Hitem].
  19,20: (split;
    [intros call Hcall; eapply Hdecline; [by (left + right)|];
     revert Hitem Hcall;
     unfold DeclineMsgRequestMenuItem, DeclineAndBlockMsgRequestMenuItem; cbv zeta;
     (destruct (_ && _); [|by intros [=]]); intros [= ->]; simpl;
     intros Hcall; apply elem_of_cons in Hcall as [->|Hcall];
     [reflexivity | by apply elem_of_nil in Hcall]
    |intros e; revert Hitem;
     unfold DeclineMsgRequestMenuItem, DeclineAndBlockMsgRequestMenuItem; cbv zeta;
     (destruct (_ && _); [|by intros [=]]); by intros [= ->]]).
  18: { split.
    - intros call. revert Hitem. unfold AcceptMsgRequestMenuItem. cbv zeta.
      (destruct (_ && _); [|by intros [=]]). intros [= ->]. simpl.
      destruct (getConversationController_get _); simpl; intros Hcall.
      + exists [].
        repeat (apply elem_of_cons in Hcall as [->|Hcall];
                [by split; [|intros ? ?%elem_of_nil]|]).
        by apply elem_of_nil in Hcall.
      + by apply elem_of_nil in Hcall.
    - intros e Hthrows. split; [done|]. revert Hitem Hthrows.
      unfold AcceptMsgRequestMenuItem. cbv zeta.
      (destruct (_ && _); [|by intros [=]]). intros [= ->]. simpl.
      by destruct (getConversationController_get _). }
  all: revert Hitem;
    unfold InviteContactMenuItem, MarkConversationUnreadMenuItem,
      DeletePrivateContactMenuItem, LeaveGroupOrCommunityMenuItem,
      ShowUserDetailsMenuItem, UpdateGroupNameMenuItem, RemoveModeratorsMenuItem,
      AddModeratorsMenuItem, UnbanMenuItem, BanMenuItem, CopyMenuItem,
      MarkAllReadMenuItem, BlockMenuItem, ClearNicknameMenuItem,
      ChangeNicknameMenuItem, DeleteMessagesMenuItem,
      DeletePrivateConversationMenuItem; cbv zeta;
    (match goal with
     | |- Some _ = (if ?b then _ else _) → _ => destruct b; [|]
     end;
     intros [= ->] || (by intros [=]));
    simpl;
    (split;
     [intros call Hcall; exists []
     |intros e; try done; by destruct (getConversationController_get _)]);
    try (destruct (getConversationController_get _); simpl in Hcall);
    try (destruct (useIsBlocked _); simpl in Hcall);
    repeat (apply elem_of_cons in Hcall as [->|Hcall];
            [by split; [|intros ? ?%elem_of_nil]|]);
    by apply elem_of_nil in Hcall.
Qed.

Lemma menu_items_act_on_context_conversation_witness :
  let hooks :=
    toy_hooks "05b0b" false true false true false false false (Some "05cafe") None in
  ∃ others,
    Action_conversationIds
      (declineConversationWithConfirm "05b0b" true true (Some "05cafe"))
    = "05b0b" :: others
    ∧ ∀ other,
        other ∈ others →
        Some "05cafe" = Some other
        ∧ other ≠ ""
        ∧ (DeclineAndBlockMsgRequestMenuItem (H := hooks)
           = DeclineMsgRequestMenuItem (H := hooks)
           ∨ DeclineAndBlockMsgRequestMenuItem (H := hooks)
             = DeclineAndBlockMsgRequestMenuItem (H := hooks)).
Proof.
  intros hooks.
  assert (Some {| item_label := "block";
                  item_onClick :=
                    calls [declineConversationWithConfirm "05b0b" true true
                             (Some "05cafe")];
                  item_disabled := false |}
          ∈ conversation_menu_items (H := hooks)) as Hitem.
  { unfold conversation_menu_items. do 19 apply list_elem_of_further.
    apply list_elem_of_here. }
  apply (proj1 (menu_items_act_on_context_conversation (H := hooks) _ Hitem)
           (declineConversationWithConfirm "05b0b" true true (Some "05cafe"))).
  apply list_elem_of_here.
Defined.

(** X24. The notification submenu, when rendered, offers the settings of
    [ConversationNotificationSetting] in their order, all of them for a
    group or community and all but mentions-only for a private chat; the
    option that is the current setting, and only it, is disabled; every
    option is named by its own localizer key and sets itself on the
    selected conversation. *)
Theorem notification_submenu_options `{MenuHooks} (menu : Submenu) :
  NotificationForConvoMenuItem = Some menu →
  (submenu_items menu).*1
  = List.filter
      (λ n, negb useSelectedIsPrivate || negb (bool_decide (n = mentions_only)))
      ConversationNotificationSetting
  ∧ (useSelectedIsPrivate = true → mentions_only ∉ (submenu_items menu).*1)
  ∧ (useSelectedIsPrivate = false →
     (submenu_items menu).*1 = ConversationNotificationSetting)
  ∧ ∃ selectedConvoId,
      useSelectedConversationKey = Some selectedConvoId
      ∧ selectedConvoId ≠ ""
      ∧ Forall
          (λ option : ConversationNotificationSettingType * Item,
             (item_disabled option.2 = true
              ↔ useSelectedNotificationSetting = Some option.1)
             ∧ item_label option.2
               = window_i18n (NotificationForConvoMenuItem_keyToUse option.1)
             ∧ item_onClick option.2
               = calls [setNotificationForConvoId selectedConvoId option.1])
          (submenu_items menu).
Proof.
  unfold NotificationForConvoMenuItem. cbv zeta.
  destruct (string_or_undefined useSelectedConversationKey) as [selected|] eqn:Hsel;
    [|done].
  apply string_or_undefined_Some in Hsel as [Hsel Hne].
  destruct (_ || _ || _ || _ || _); [done|]. intros [= <-]. simpl.
  unfold NotificationForConvoMenuItem_options.
  assert (∀ l : list ConversationNotificationSettingType,
    ((λ item : ConversationNotificationSettingType * string,
        (item.1,
         {| item_label := item.2;
            item_onClick := calls [setNotificationForConvoId selected item.1];
            item_disabled := bool_decide (Some item.1 = useSelectedNotificationSetting) |}))
       <$> ((λ n, (n, window_i18n (NotificationForConvoMenuItem_keyToUse n))) <$> l)).*1
    = l) as Hkeys.
  { intros l. induction l as [|n l IH]; [done|]. csimpl. by rewrite IH. }
  rewrite Hkeys.
  assert (List.filter
            (λ n, if useSelectedIsPrivate
                  then match n with mentions_only => false | _ => true end
                  else true)
            ConversationNotificationSetting
          = List.filter
              (λ n, negb useSelectedIsPrivate || negb (bool_decide (n = mentions_only)))
              ConversationNotificationSetting) as Hfilter.
  { apply List.filter_ext. intros n.
    destruct useSelectedIsPrivate; [|done]. by destruct n. }
  split; [done|]. split; [|split].
  - intros Hprivate Hin. rewrite Hfilter, Hprivate in Hin.
    apply list_elem_of_In, List.filter_In in Hin as [_ Hin].
    by vm_compute in Hin.
  - intros Hprivate. rewrite Hprivate. clear Hfilter Hkeys.
    induction ConversationNotificationSetting as [|n l IH]; simpl; [done|].
    by rewrite IH.
  - exists selected. split; [done|]. split; [done|].
    rewrite !Forall_fmap. apply Forall_forall. intros n _. simpl.
    split; [|done]. rewrite bool_decide_eq_true. split; [done|by intros ->].
Qed.

Lemma notification_submenu_options_witness :
  let hooks :=
    toy_hooks "05b0b" false true true false false false false (Some "05b0b")
      (Some disabled) in
  ∃ menu,
    NotificationForConvoMenuItem (H := hooks) = Some menu
    ∧ (submenu_items menu).*1 = [all; disabled]
    ∧ item_disabled <$> (submenu_items menu).*2 = [false; true].
Proof.
  intros hooks. eexists. split; [reflexivity|].
  split; [|reflexivity].
  eapply eq_trans.
  - eapply proj1.
    apply (notification_submenu_options (H := hooks)). reflexivity.
  - reflexivity.
Defined.

(** * Errors that leave the coordinator *)

(** X25. Whatever [expireMessageOnSnode] throws is one of four things: the
    [TypeError] of the misspelt logger call when a key is missing, the
    decoder's error on the secret key, [EmptySwarmError] when there is no
    node to use, or what [firstTrue] rejects with on the promises of the
    attempts.  A request with both flags set never throws. *)
Theorem expireMessageOnSnode_thrown_errors `{Collaborators}
    (props : ExpireMessageOnSnodeProps) (tr : Trace) (e : JsError) :
  fst (expireMessageOnSnode props tr) = Thrown e →
  truthy (props_extend props) && truthy (props_shorten props) = false
  ∧ ((e = TypeError "window.log.eror is not a function"
      ∧ window_log_has_eror = false
      ∧ (getOurPubKeyFromCache = None ∨ getUserED25519KeyPair = None))
     ∨ (∃ ourEd25519Key,
          getUserED25519KeyPair = Some ourEd25519Key
          ∧ fromHexToArray (privKey ourEd25519Key) = Thrown e)
     ∨ (∃ ourPubKey,
          getOurPubKeyFromCache = Some ourPubKey
          ∧ take DEFAULT_CONNECTIONS (getSwarmFor (key ourPubKey)) = []
          ∧ e = EmptySwarmError (key ourPubKey) "Ran out of swarm nodes to query")
     ∨ (∃ ourPubKey ourEd25519Key sig,
          getOurPubKeyFromCache = Some ourPubKey
          ∧ getUserED25519KeyPair = Some ourEd25519Key
          ∧ firstTrue
              (promise_value
                 (expireMessageOnSnode_params ourPubKey ourEd25519Key
                    (messageHash props)
                    (expireMessageOnSnode_expiry props ourPubKey tr)
                    (props_extend props) (props_shorten props)
                    {| sig_signature := fromUInt8ArrayToBase64 sig;
                       sig_pubkey_ed25519 := pubKey ourEd25519Key |})
                 <$> take DEFAULT_CONNECTIONS (getSwarmFor (key ourPubKey)))
            = Thrown e)).
Proof.
  destruct (truthy (props_extend props) && truthy (props_shorten props)) eqn:Hflags.
  { by rewrite (expireMessageOnSnode_both_flags props tr Hflags). }
  intros Hthrown. split; [done|].
  destruct getOurPubKeyFromCache as [ourPubKey|] eqn:Hpub; cycle 1.
  { rewrite (expireMessageOnSnode_missing_key props tr Hflags (or_introl Hpub)) in Hthrown.
    destruct window_log_has_eror; [done|].
    injection Hthrown as <-. left. auto. }
  destruct getUserED25519KeyPair as [ourEd25519Key|] eqn:Hed; cycle 1.
  { rewrite (expireMessageOnSnode_missing_key props tr Hflags (or_intror Hed)) in Hthrown.
    destruct window_log_has_eror; [done|].
    injection Hthrown as <-. left. auto. }
  destruct (fromHexToArray (privKey ourEd25519Key)) as [secretKey|e'] eqn:Hkey; cycle 1.
  { rewrite (expireMessageOnSnode_undecodable_key props tr _ _ e' Hflags Hpub Hed Hkey)
      in Hthrown.
    injection Hthrown as <-. right. left. eauto. }
  destruct (crypto_sign_detached (expireMessageOnSnode_message props ourPubKey tr) secretKey)
    as [sig|e'] eqn:Hsign; cycle 1.
  { by rewrite (expireMessageOnSnode_signing_failed props tr _ _ _ e'
                  Hflags Hpub Hed Hkey Hsign) in Hthrown. }
  rewrite (expireMessageOnSnode_signed_unfold props tr ourPubKey ourEd25519Key
             secretKey sig Hflags Hpub Hed Hkey Hsign) in Hthrown.
  case_bool_decide as Hlen.
  { apply nil_length_inv in Hlen. injection Hthrown as <-.
    right. right. left. eauto. }
  right. right. right. exists ourPubKey, ourEd25519Key, sig.
  split; [done|]. split; [done|].
  revert Hthrown. unfold bind at 1.
  match goal with
  | |- context [mapM (expireMessageOnSnode_promise ?params) ?nodes ?tr0] =>
      pose proof (promises_values params nodes tr0) as Hvalues;
      destruct (mapM (expireMessageOnSnode_promise params) nodes tr0) as [o tr']
  end.
  simpl in Hvalues. subst o.
  unfold try_catch, bind, lift.
  destruct (firstTrue _) as [n|e'']; [done|].
  unfold window_log, emit, throw. by intros [= ->].
Qed.

Lemma expireMessageOnSnode_thrown_errors_witness :
  let world := toy_world (Some alice) (Some alice_ed25519) [] (Returned None) in
  fst (expireMessageOnSnode (H := world) (sample_props None None) [])
  = Thrown (EmptySwarmError "05a11ce" "Ran out of swarm nodes to query")
  ∧ truthy (props_extend (sample_props None None))
    && truthy (props_shorten (sample_props None None)) = false.
Proof.
  intros world. split; [reflexivity|].
  eapply proj1.
  apply (expireMessageOnSnode_thrown_errors (H := world) (sample_props None None) []
           (EmptySwarmError "05a11ce" "Ran out of swarm nodes to query")).
  reflexivity.
Defined.
